(** * Cloud event recorder of the IBM cloud provider (package [ibm])

    A shallow embedding of the hand-written event recorder
    ([CloudEventRecorder], its constructors, its five event methods and
    [getLoadBalancerPortableSubnetPossibleErrors]) together with the
    properties its specification states about it.

    Go packages are mirrored by modules ([metav1], [types], [apps], [v1],
    [record], [fmt], [errors]); the declarations of package [ibm] itself
    live at top level.  Go pointers are addresses into a store, a nil
    dereference is a panic, and a call of [Recorder.Event] is an entry
    appended to the log of the world. *)

From stdpp Require Import gmap strings list fin_maps pretty.
From Stdlib Require Import Ascii.

Local Open Scope Z_scope.

(** ** Pointers *)

Definition loc := positive.

(** A Go pointer [*A]: nil, or the address of an [A] in the store. *)
Inductive ptr (A : Type) : Type :=
| NilPtr
| Ptr (l : loc).
Arguments NilPtr {A}.
Arguments Ptr {A} l.

(** ** k8s.io/apimachinery/pkg/apis/meta/v1 *)

Module metav1.
(** The fields of [ObjectMeta] that package [ibm] reads. *)
Record ObjectMeta := {
  Namespace : string;
  Name : string;
  UID : string
}.
End metav1.

(** ** k8s.io/apimachinery/pkg/types *)

Module types.
Definition UID := string.

Definition Separator : ascii := "/"%char.

Record NamespacedName := {
  Namespace : string;
  Name : string
}.

(** [func (n NamespacedName) String() string]:
    [n.Namespace + string(Separator) + n.Name]. *)
Definition NamespacedName_String (n : NamespacedName) : string :=
  Namespace n +:+ String Separator "" +:+ Name n.
End types.

(** ** k8s.io/api/apps/v1 and k8s.io/api/core/v1 *)

Module apps.
Record Deployment := { ObjectMeta : metav1.ObjectMeta }.
End apps.

Module v1.
Record Service := { ObjectMeta : metav1.ObjectMeta }.

Record EventSource := { Component : string }.

Definition EventTypeNormal : string := "Normal".
Definition EventTypeWarning : string := "Warning".
End v1.

(** ** k8s.io/apimachinery/pkg/runtime *)

Module runtime.
(** The [runtime.Object] values this package hands to the recorder: a
    [*apps.Deployment] or a [*v1.Service]. *)
Inductive Object :=
| DeploymentObject (p : ptr apps.Deployment)
| ServiceObject (p : ptr v1.Service).
End runtime.

(** ** k8s.io/client-go: clientset, typed core client, event recording *)

Module rest.
(** A REST client, known only by its identity. *)
Inductive Interface := Client (id : positive).
End rest.

Module v1core.
(** [v1core.New(c).Events(namespace)]: the events client of a namespace
    over a REST client. *)
Record EventInterface := {
  client : rest.Interface;
  ns : string
}.

Record CoreV1Client := { restClient : rest.Interface }.

Definition New (c : rest.Interface) : CoreV1Client := {| restClient := c |}.

Definition Events (c : CoreV1Client) (namespace : string) : EventInterface :=
  {| client := restClient c; ns := namespace |}.

Record EventSinkImpl := { Interface : EventInterface }.
End v1core.

Module clientset.
(** What [NewCloudEventRecorder] uses of a clientset:
    [kubeClient.CoreV1().RESTClient()]. *)
Record Clientset := { CoreV1_RESTClient : rest.Interface }.

(** The interface value [clientset.Interface]; [None] is nil. *)
Definition Interface := option Clientset.
End clientset.

Module record.
(** The broadcaster as far as the constructor configures it: whether
    logging was started, and the sinks it records to.  The logging
    function of [StartLogging] ([klog.Infof]) and the scheme of
    [NewRecorder] ([scheme.Scheme]) are constants of the only caller and
    are left out. *)
Record Broadcaster := {
  logging : bool;
  sinks : list v1core.EventSinkImpl
}.

Definition NewBroadcaster : Broadcaster :=
  {| logging := false; sinks := [] |}.

Definition StartLogging (b : Broadcaster) : Broadcaster :=
  {| logging := true; sinks := sinks b |}.

Definition StartRecordingToSink (sink : v1core.EventSinkImpl) (b : Broadcaster) : Broadcaster :=
  {| logging := logging b; sinks := sink :: sinks b |}.

(** The recorder [broadcaster.NewRecorder(scheme, source)] returns. *)
Record recorderImpl := {
  source : v1.EventSource;
  broadcaster : Broadcaster
}.

(** The interface value [record.EventRecorder]; [None] is nil. *)
Definition EventRecorder := option recorderImpl.

Definition NewRecorder (b : Broadcaster) (src : v1.EventSource) : EventRecorder :=
  Some {| source := src; broadcaster := b |}.

(** One call [recorder.Event(object, eventtype, reason, message)]. *)
Record EventCall := {
  via : recorderImpl;
  object : runtime.Object;
  eventtype : string;
  reason : string;
  message : string
}.
End record.

(** ** errors *)

Module errors.
Record errorString := { s : string }.

(** The interface value [error]; [None] is nil. *)
Definition error := option errorString.

Definition New (text : string) : error := Some {| s := text |}.

Definition Error (e : errorString) : string := s e.
End errors.

(** ** fmt *)

Module fmt.
(** The operands package [ibm] formats: values of kind string (with the
    name of their type), ints, and [types.NamespacedName], which has a
    [String] method. *)
Inductive Arg :=
| AString (type_name : string) (s : string)
| AInt (z : Z)
| ANamespacedName (n : types.NamespacedName).

Definition str (s : string) : Arg := AString "string" s.
Definition uid (u : types.UID) : Arg := AString "types.UID" u.
Definition int (z : Z) : Arg := AInt z.

Definition type_name (a : Arg) : string :=
  match a with
  | AString t _ => t
  | AInt _ => "int"
  | ANamespacedName _ => "types.NamespacedName"
  end.

(** The verb [%v]. *)
Definition format_v (a : Arg) : string :=
  match a with
  | AString _ s => s
  | AInt z => pretty z
  | ANamespacedName n => types.NamespacedName_String n
  end.

(** A verb that does not fit its operand: [%!verb(type=value)], applied
    field by field to a struct. *)
Definition bad_verb (verb : ascii) (a : Arg) : string :=
  let bad t v := "%!" +:+ String verb "(" +:+ t +:+ "=" +:+ v +:+ ")" in
  match a with
  | ANamespacedName n =>
      "{" +:+ bad "string" (types.Namespace n) +:+ " "
          +:+ bad "string" (types.Name n) +:+ "}"
  | _ => bad (type_name a) (format_v a)
  end.

(** The verbs [%v], [%s] and [%d]; other verbs, flags, widths and
    precisions are not modelled (no format string of package [ibm] has
    them) and are rendered as a verb that does not fit. *)
Definition format_verb (verb : ascii) (a : Arg) : string :=
  if Ascii.eqb verb "v" then format_v a
  else if Ascii.eqb verb "s" then
    match a with
    | AInt _ => bad_verb verb a
    | _ => format_v a
    end
  else if Ascii.eqb verb "d" then
    match a with
    | AInt z => pretty z
    | _ => bad_verb verb a
    end
  else bad_verb verb a.

(** Operands left over when the format string ends. *)
Definition extra (a : list Arg) : string :=
  match a with
  | [] => ""
  | x :: a' =>
      "%!(EXTRA " +:+ type_name x +:+ "=" +:+ format_v x
      +:+ fold_right (fun y acc => ", " +:+ type_name y +:+ "=" +:+ format_v y +:+ acc) ")" a'
  end.

Fixpoint Sprintf (format : string) (a : list Arg) : string :=
  match format with
  | EmptyString => extra a
  | String c rest =>
      if Ascii.eqb c "%" then
        match rest with
        | EmptyString => "%!(NOVERB)" +:+ extra a
        | String verb rest' =>
            if Ascii.eqb verb "%" then String "%" (Sprintf rest' a)
            else
              match a with
              | [] => "%!" +:+ String verb "(MISSING)" +:+ Sprintf rest' []
              | x :: a' => format_verb verb x +:+ Sprintf rest' a'
              end
        end
      else String c (Sprintf rest a)
  end.
End fmt.

(** ** Package ibm: data *)

(** [type CloudEventRecorder struct { Name string; Recorder record.EventRecorder }] *)
Record CloudEventRecorder := {
  Name : string;
  Recorder : record.EventRecorder
}.

(** [type CloudEventReason string] *)
Definition CloudEventReason := string.

Definition CloudLoadBalancerNormalEvent : CloudEventReason := "CloudLoadBalancerNormalEvent".
Definition CreatingCloudLoadBalancerFailed : CloudEventReason := "CreatingCloudLoadBalancerFailed".
Definition UpdatingCloudLoadBalancerFailed : CloudEventReason := "UpdatingCloudLoadBalancerFailed".
Definition DeletingCloudLoadBalancerFailed : CloudEventReason := "DeletingCloudLoadBalancerFailed".
Definition DeletingLoadBalancerPodFailed : CloudEventReason := "DeletingLoadBalancerPodFailed".
Definition GettingCloudLoadBalancerFailed : CloudEventReason := "GettingCloudLoadBalancerFailed".
Definition VerifyingCloudLoadBalancerFailed : CloudEventReason := "VerifyingCloudLoadBalancerFailed".
Definition MovingCloudLoadBalancerFailedLocalOnlyTraffic : CloudEventReason :=
  "MovingCloudLoadBalancerFailedLocalOnlyTraffic".
Definition CloudVPCLoadBalancerNormalEvent : CloudEventReason := "CloudVPCLoadBalancerNormalEvent".
Definition CloudVPCLoadBalancerMaintenance : CloudEventReason := "CloudVPCLoadBalancerMaintenance".
Definition CloudVPCLoadBalancerFailed : CloudEventReason := "CloudVPCLoadBalancerFailed".
Definition CloudVPCLoadBalancerNotFound : CloudEventReason := "CloudVPCLoadBalancerNotFound".

(** The declared reasons, in the order of the [const] block. *)
Definition cloudEventReasons : list CloudEventReason :=
  [ CloudLoadBalancerNormalEvent; CreatingCloudLoadBalancerFailed;
    UpdatingCloudLoadBalancerFailed; DeletingCloudLoadBalancerFailed;
    DeletingLoadBalancerPodFailed; GettingCloudLoadBalancerFailed;
    VerifyingCloudLoadBalancerFailed; MovingCloudLoadBalancerFailedLocalOnlyTraffic;
    CloudVPCLoadBalancerNormalEvent; CloudVPCLoadBalancerMaintenance;
    CloudVPCLoadBalancerFailed; CloudVPCLoadBalancerNotFound ].

(** A [CloudEventReason] operand of [fmt.Sprintf]. *)
Definition reason_arg (r : CloudEventReason) : fmt.Arg :=
  fmt.AString "ibm.CloudEventReason" r.

(** ** The world a call runs in *)

(** The store holds the objects pointers refer to, one heap per pointee
    type; [emitted] is the log of the calls of [Recorder.Event], oldest
    first. *)
Record World := {
  recorders : gmap loc CloudEventRecorder;
  deployments : gmap loc apps.Deployment;
  services : gmap loc v1.Service;
  emitted : list record.EventCall
}.

(** A call either returns a value or panics; both leave a world behind. *)
Inductive outcome (A : Type) : Type :=
| Returns (a : A) (w : World)
| Panics (w : World).
Arguments Returns {A} a w.
Arguments Panics {A} w.

Definition M (A : Type) : Type := World -> outcome A.

Global Instance M_ret : MRet M := fun A a w => Returns a w.

Global Instance M_bind : MBind M := fun A B f m w =>
  match m w with
  | Returns a w' => f a w'
  | Panics w' => Panics w'
  end.

Definition panic {A} : M A := fun w => Panics w.

Definition world_after {A} (o : outcome A) : World :=
  match o with
  | Returns _ w => w
  | Panics w => w
  end.

(** The heap of each pointee type. *)
Class Allocated (A : Type) := {
  heap : World -> gmap loc A;
  set_heap : gmap loc A -> World -> World
}.

Global Instance recorders_heap : Allocated CloudEventRecorder := {|
  heap := recorders;
  set_heap h w := {| recorders := h; deployments := deployments w;
                     services := services w; emitted := emitted w |}
|}.

Global Instance deployments_heap : Allocated apps.Deployment := {|
  heap := deployments;
  set_heap h w := {| recorders := recorders w; deployments := h;
                     services := services w; emitted := emitted w |}
|}.

Global Instance services_heap : Allocated v1.Service := {|
  heap := services;
  set_heap h w := {| recorders := recorders w; deployments := deployments w;
                     services := h; emitted := emitted w |}
|}.

(** [*p]: a nil pointer panics.  An address outside the store has no
    counterpart in Go; it panics too. *)
Definition deref {A} `{Allocated A} (p : ptr A) : M A := fun w =>
  match p with
  | NilPtr => Panics w
  | Ptr l =>
      match heap w !! l with
      | Some a => Returns a w
      | None => Panics w
      end
  end.

(** [&v] for a fresh [v]. *)
Definition alloc {A} `{Allocated A} (a : A) : M (ptr A) := fun w =>
  let l := fresh (dom (heap w)) in
  Returns (Ptr l) (set_heap (<[l := a]> (heap w)) w).

(** The world after the calls [new] of [Recorder.Event] were logged. *)
Definition log_events (w : World) (new : list record.EventCall) : World :=
  {| recorders := recorders w; deployments := deployments w;
     services := services w; emitted := emitted w ++ new |}.

(** [recorder.Event(object, eventtype, reason, message)]: calling a
    method of a nil interface value panics; otherwise the call is logged.
    The recorder reads [object] and writes nothing to the store. *)
Definition Event (recorder : record.EventRecorder) (object : runtime.Object)
    (eventtype reason message : string) : M unit := fun w =>
  match recorder with
  | None => Panics w
  | Some r =>
      Returns tt
        (log_events w
           [ {| record.via := r; record.object := object;
                record.eventtype := eventtype; record.reason := reason;
                record.message := message |} ])
  end.

(** ** Package ibm: constructors *)

(** [NewCloudEventRecorderV1]. *)
Definition NewCloudEventRecorderV1 (providerName : string)
    (eventInterface : v1core.EventInterface) : M (ptr CloudEventRecorder) :=
  let name := providerName +:+ "-cloud-provider" in
  let broadcaster := record.NewBroadcaster in
  let broadcaster := record.StartLogging broadcaster in
  let broadcaster :=
    record.StartRecordingToSink {| v1core.Interface := eventInterface |} broadcaster in
  let eventRecorder :=
    {| Name := name;
       Recorder := record.NewRecorder broadcaster {| v1.Component := name |} |} in
  alloc eventRecorder.

(** [NewCloudEventRecorder]: [kubeClient.CoreV1()] on a nil interface
    value panics. *)
Definition NewCloudEventRecorder (providerName : string)
    (kubeClient : clientset.Interface) : M (ptr CloudEventRecorder) :=
  match kubeClient with
  | None => panic
  | Some k =>
      NewCloudEventRecorderV1 providerName
        (v1core.Events (v1core.New (clientset.CoreV1_RESTClient k)) "")
  end.

(** ** Package ibm: event methods *)

(** [p.ObjectMeta.Field] and the like: one dereference of [p]. *)
Definition field {A B} `{Allocated A} (p : ptr A) (f : A -> B) : M B :=
  a ← deref p; mret (f a).

Section EventMethods.

(** [GetCloudProviderLoadBalancerName(service *v1.Service) string] is
    declared in another file of package [ibm]: it is taken as a
    parameter, the name it computes from the service its argument
    points to. *)
Variable GetCloudProviderLoadBalancerName : v1.Service -> string.

(** The call [GetCloudProviderLoadBalancerName(lbService)].  Whatever
    the helper does with a nil pointer, the caller dereferences the same
    pointer right after: the call is placed at that dereference. *)
Definition call_GetCloudProviderLoadBalancerName (service : ptr v1.Service) : M string :=
  field service GetCloudProviderLoadBalancerName.

(** [LoadBalancerNormalEvent] logs a load balancer service event. *)
Definition LoadBalancerNormalEvent (c : ptr CloudEventRecorder)
    (lbDeployment : ptr apps.Deployment) (lbService : ptr v1.Service)
    (reason : CloudEventReason) (eventMessage : string) : M unit :=
  lbName ← call_GetCloudProviderLoadBalancerName lbService;
  dNamespace ← field lbDeployment (fun d => metav1.Namespace (apps.ObjectMeta d));
  dName ← field lbDeployment (fun d => metav1.Name (apps.ObjectMeta d));
  sNamespace ← field lbService (fun s => metav1.Namespace (v1.ObjectMeta s));
  sName ← field lbService (fun s => metav1.Name (v1.ObjectMeta s));
  sUID ← field lbService (fun s => metav1.UID (v1.ObjectMeta s));
  let message :=
    fmt.Sprintf
      "Event on cloud load balancer %v with associated deployment %v for service %v with UID %v: %v"
      [ fmt.str lbName;
        fmt.ANamespacedName {| types.Namespace := dNamespace; types.Name := dName |};
        fmt.ANamespacedName {| types.Namespace := sNamespace; types.Name := sName |};
        fmt.uid sUID;
        fmt.str eventMessage ] in
  recorder ← field c Recorder;
  Event recorder (runtime.DeploymentObject lbDeployment) v1.EventTypeNormal
    (fmt.Sprintf "%v" [reason_arg reason]) message;;
  recorder ← field c Recorder;
  Event recorder (runtime.ServiceObject lbService) v1.EventTypeNormal
    (fmt.Sprintf "%v" [reason_arg reason]) message.

(** [LoadBalancerWarningEvent] logs load balancer deployment and service
    warning events and returns an error representing the events. *)
Definition LoadBalancerWarningEvent (c : ptr CloudEventRecorder)
    (lbDeployment : ptr apps.Deployment) (lbService : ptr v1.Service)
    (reason : CloudEventReason) (errorMessage : string) : M errors.error :=
  lbName ← call_GetCloudProviderLoadBalancerName lbService;
  dNamespace ← field lbDeployment (fun d => metav1.Namespace (apps.ObjectMeta d));
  dName ← field lbDeployment (fun d => metav1.Name (apps.ObjectMeta d));
  sNamespace ← field lbService (fun s => metav1.Namespace (v1.ObjectMeta s));
  sName ← field lbService (fun s => metav1.Name (v1.ObjectMeta s));
  sUID ← field lbService (fun s => metav1.UID (v1.ObjectMeta s));
  let message :=
    fmt.Sprintf
      "Error on cloud load balancer %v with associated deployment %v for service %v with UID %v: %v"
      [ fmt.str lbName;
        fmt.ANamespacedName {| types.Namespace := dNamespace; types.Name := dName |};
        fmt.ANamespacedName {| types.Namespace := sNamespace; types.Name := sName |};
        fmt.uid sUID;
        fmt.str errorMessage ] in
  recorder ← field c Recorder;
  Event recorder (runtime.DeploymentObject lbDeployment) v1.EventTypeWarning
    (fmt.Sprintf "%v" [reason_arg reason]) message;;
  recorder ← field c Recorder;
  Event recorder (runtime.ServiceObject lbService) v1.EventTypeWarning
    (fmt.Sprintf "%v" [reason_arg reason]) message;;
  mret (errors.New message).

(** [LoadBalancerServiceWarningEvent] logs a load balancer service
    warning event and returns an error representing the event. *)
Definition LoadBalancerServiceWarningEvent (c : ptr CloudEventRecorder)
    (lbService : ptr v1.Service)
    (reason : CloudEventReason) (errorMessage : string) : M errors.error :=
  lbName ← call_GetCloudProviderLoadBalancerName lbService;
  sNamespace ← field lbService (fun s => metav1.Namespace (v1.ObjectMeta s));
  sName ← field lbService (fun s => metav1.Name (v1.ObjectMeta s));
  sUID ← field lbService (fun s => metav1.UID (v1.ObjectMeta s));
  let message :=
    fmt.Sprintf
      "Error on cloud load balancer %v for service %v with UID %v: %v"
      [ fmt.str lbName;
        fmt.ANamespacedName {| types.Namespace := sNamespace; types.Name := sName |};
        fmt.uid sUID;
        fmt.str errorMessage ] in
  recorder ← field c Recorder;
  Event recorder (runtime.ServiceObject lbService) v1.EventTypeWarning
    (fmt.Sprintf "%v" [reason_arg reason]) message;;
  mret (errors.New message).

End EventMethods.

(** [VpcLoadBalancerServiceWarningEvent] logs a VPC load balancer service
    warning event and returns an error representing the event. *)
Definition VpcLoadBalancerServiceWarningEvent (c : ptr CloudEventRecorder)
    (lbService : ptr v1.Service)
    (reason : CloudEventReason) (lbName : string) (errorMessage : string) : M errors.error :=
  sNamespace ← field lbService (fun s => metav1.Namespace (v1.ObjectMeta s));
  sName ← field lbService (fun s => metav1.Name (v1.ObjectMeta s));
  sUID ← field lbService (fun s => metav1.UID (v1.ObjectMeta s));
  let message :=
    fmt.Sprintf
      "Error on cloud load balancer %v for service %v with UID %v: %v"
      [ fmt.str lbName;
        fmt.ANamespacedName {| types.Namespace := sNamespace; types.Name := sName |};
        fmt.uid sUID;
        fmt.str errorMessage ] in
  recorder ← field c Recorder;
  Event recorder (runtime.ServiceObject lbService) v1.EventTypeWarning
    (fmt.Sprintf "%v" [reason_arg reason]) message;;
  mret (errors.New message).

(** [VpcLoadBalancerServiceNormalEvent] logs a VPC load balancer service
    event. *)
Definition VpcLoadBalancerServiceNormalEvent (c : ptr CloudEventRecorder)
    (lbService : ptr v1.Service)
    (reason : CloudEventReason) (lbName : string) (eventMessage : string) : M unit :=
  sNamespace ← field lbService (fun s => metav1.Namespace (v1.ObjectMeta s));
  sName ← field lbService (fun s => metav1.Name (v1.ObjectMeta s));
  sUID ← field lbService (fun s => metav1.UID (v1.ObjectMeta s));
  let message :=
    fmt.Sprintf
      "Event on cloud load balancer %v for service %v with UID %v: %v"
      [ fmt.str lbName;
        fmt.ANamespacedName {| types.Namespace := sNamespace; types.Name := sName |};
        fmt.uid sUID;
        fmt.str eventMessage ] in
  recorder ← field c Recorder;
  Event recorder (runtime.ServiceObject lbService) v1.EventTypeNormal
    (fmt.Sprintf "%v" [reason_arg reason]) message.

(** ** Package ibm: possible errors of the portable subnets *)

(** Go's [int] on a 64-bit platform: [x++] wraps around. *)
Definition int_wrap (z : Z) : Z := (z + 2 ^ 63) `mod` 2 ^ 64 - 2 ^ 63.

Section PortableSubnetErrors.

(** The struct [subnetConfigErrorField] and the four message constants
    are declared in another file of package [ibm]: the struct is taken
    as a type with the two string fields the function reads, the
    constants as strings. *)
Variable subnetConfigErrorField : Type.
Variable ErrorReasonCode : subnetConfigErrorField -> string.
Variable ErrorMessage : subnetConfigErrorField -> string.
Variable lbPortableSubnetMessage : string.
Variable lbDocTroubleshootMessage : string.
Variable lbNoIPsMessage : string.
Variable lbDocReferenceMessage : string.

(** The local [type subnetConfigErrors struct]; its first field is named
    [subnetConfigErrorField] in the source. *)
Record subnetConfigErrors := {
  errorField : subnetConfigErrorField;
  occurrences : Z
}.

(** Go leaves the order of a [range] over a map unspecified.  The order
    is a parameter: [vlan_order] for the range over the argument, and
    [errors_order i] for the range over [errors] in the [i]-th round of
    the outer loop.  A Go run visits every entry exactly once, so each
    order is a permutation of the entries ([range_orders]). *)
Variable vlan_order :
  gmap string (list subnetConfigErrorField) -> list (string * list subnetConfigErrorField).
Variable errors_order :
  nat -> gmap string subnetConfigErrors -> list (string * subnetConfigErrors).

Definition range_orders : Prop :=
  (forall m, vlan_order m ≡ₚ map_to_list m) /\
  (forall i m, errors_order i m ≡ₚ map_to_list m).

(** The body of the loop over the subnet errors of one vlan. *)
Definition count_error (errors : gmap string subnetConfigErrors)
    (portableSubnetError : subnetConfigErrorField) : gmap string subnetConfigErrors :=
  match errors !! ErrorReasonCode portableSubnetError with
  | None =>
      <[ErrorReasonCode portableSubnetError :=
          {| errorField := portableSubnetError; occurrences := 1 |}]> errors
  | Some e =>
      <[ErrorReasonCode portableSubnetError :=
          {| errorField := errorField e;
             occurrences := int_wrap (occurrences e + 1) |}]> errors
  end.

(** The body of the loop over [errors]. *)
Definition append_error (errMsg : string) (tempError : subnetConfigErrors) : string :=
  let errMsg := if negb (String.eqb errMsg "") then errMsg +:+ ", " else errMsg in
  errMsg +:+
    fmt.Sprintf "[%s: %s - Number of Occurrences: %d.]"
      [ fmt.str (ErrorReasonCode (errorField tempError));
        fmt.str (ErrorMessage (errorField tempError));
        fmt.int (occurrences tempError) ].

(** The loop over the vlans, from round [i] on; [errors] and [errMsg]
    are carried from one round to the next. *)
Fixpoint vlan_loop (i : nat) (vlans : list (string * list subnetConfigErrorField))
    (errors : gmap string subnetConfigErrors) (errMsg : string) : string :=
  match vlans with
  | [] => errMsg
  | (_, portableSubnetVlanError) :: vlans' =>
      let errors := foldl count_error errors portableSubnetVlanError in
      let errMsg := foldl append_error errMsg (errors_order i errors).*2 in
      vlan_loop (S i) vlans' errors errMsg
  end.

(** [getLoadBalancerPortableSubnetPossibleErrors] parses the errors for
    the portable subnet configmap and creates a message that can be
    appended to any failed load balancer event. *)
Definition getLoadBalancerPortableSubnetPossibleErrors
    (portableSubnetVlanErrors : gmap string (list subnetConfigErrorField)) : string :=
  let errMsg := vlan_loop 0 (vlan_order portableSubnetVlanErrors) ∅ "" in
  if negb (String.eqb errMsg "") then
    lbPortableSubnetMessage +:+ " " +:+ errMsg +:+ " " +:+ lbDocTroubleshootMessage
  else
    lbNoIPsMessage +:+ " " +:+ lbDocReferenceMessage.

End PortableSubnetErrors.

Arguments errorField {_} _.
Arguments occurrences {_} _.

(** ** Strings *)

(** [strings.Contains(s, substr)]. *)
Fixpoint Contains (s substr : string) : bool :=
  String.prefix substr s ||
  match s with
  | EmptyString => false
  | String _ s' => Contains s' substr
  end.

Definition starts_with (prefix s : string) : Prop := exists rest, s = prefix +:+ rest.
Definition ends_with (suffix s : string) : Prop := exists rest, s = rest +:+ suffix.

(** ** Vocabulary of the properties *)

(** What a pointer refers to in a world, if anything. *)
Definition lookup_ptr {A} `{Allocated A} (w : World) (p : ptr A) : option A :=
  match p with
  | NilPtr => None
  | Ptr l => heap w !! l
  end.

(** The receiver [c] points to a recorder whose [Recorder] is [r]. *)
Definition receiver (w : World) (c : ptr CloudEventRecorder) (r : record.recorderImpl) : Prop :=
  exists cr, lookup_ptr w c = Some cr /\ Recorder cr = Some r.

Definition call (r : record.recorderImpl) (object : runtime.Object)
    (eventtype reason message : string) : record.EventCall :=
  {| record.via := r; record.object := object; record.eventtype := eventtype;
     record.reason := reason; record.message := message |}.

Definition namespace_name (o : metav1.ObjectMeta) : string :=
  metav1.Namespace o +:+ "/" +:+ metav1.Name o.

(** The two templates, with [kind] being [Event] or [Error]. *)
Definition deployment_service_message (kind lbName : string)
    (d : apps.Deployment) (s : v1.Service) (text : string) : string :=
  kind +:+ " on cloud load balancer " +:+ lbName
    +:+ " with associated deployment " +:+ namespace_name (apps.ObjectMeta d)
    +:+ " for service " +:+ namespace_name (v1.ObjectMeta s)
    +:+ " with UID " +:+ metav1.UID (v1.ObjectMeta s) +:+ ": " +:+ text.

Definition service_message (kind lbName : string) (s : v1.Service) (text : string) : string :=
  kind +:+ " on cloud load balancer " +:+ lbName
    +:+ " for service " +:+ namespace_name (v1.ObjectMeta s)
    +:+ " with UID " +:+ metav1.UID (v1.ObjectMeta s) +:+ ": " +:+ text.

(** The calls of [Recorder.Event] made between [w] and the outcome [o]. *)
Definition new_events {A} (w : World) (o : outcome A) : list record.EventCall :=
  drop (length (emitted w)) (emitted (world_after o)).

(** The value a call returned, if it returned. *)
Definition returned {A} (o : outcome A) : option A :=
  match o with
  | Returns a _ => Some a
  | Panics _ => None
  end.

(** ** Properties of one invocation *)

(** A warning method returned a non-nil error whose text is the message
    of every call of [Recorder.Event] it made, and made at least one. *)
Definition returns_recorded_message (w : World) (m : M errors.error) : Prop :=
  exists e w' new,
    m w = Returns (Some e) w' /\
    emitted w' = emitted w ++ new /\
    new <> [] /\
    Forall (fun ev => record.message ev = errors.Error e) new.

(** The method made exactly two calls of [Recorder.Event] through [r],
    the first on the Deployment and the second on the Service, with one
    event type, one reason and one message, and returned [result message]. *)
Definition records_deployment_then_service {A} (w : World) (m : M A)
    (r : record.recorderImpl) (lbDeployment : ptr apps.Deployment)
    (lbService : ptr v1.Service) (eventtype reason : string)
    (result : string -> A) : Prop :=
  exists message,
    m w = Returns (result message)
            (log_events w
               [ call r (runtime.DeploymentObject lbDeployment) eventtype reason message;
                 call r (runtime.ServiceObject lbService) eventtype reason message ]).

(** A method without result either panics, leaving the world as it was,
    or returns after one or more calls of [Recorder.Event], all of type
    [eventtype]. *)
Definition returns_no_error (eventtype : string) (w : World) (m : M unit) : Prop :=
  m w = Panics w \/
  exists new,
    m w = Returns tt (log_events w new) /\
    new <> [] /\
    Forall (fun ev => record.eventtype ev = eventtype) new.

(** The method returned. *)
Definition completes {A} (w : World) (m : M A) : Prop :=
  exists a w', m w = Returns a w'.

(** The method left the store as it was and only appended to the log. *)
Definition preserves_store {A} (w : World) (m : M A) : Prop :=
  let w' := world_after (m w) in
  recorders w' = recorders w /\
  deployments w' = deployments w /\
  services w' = services w /\
  exists new, emitted w' = emitted w ++ new.

(** The messages of the calls a method made, in order. *)
Definition messages {A} (w : World) (m : M A) : list string :=
  record.message <$> new_events w (m w).

(** The reasons of the calls a method made, in order. *)
Definition reasons {A} (w : World) (m : M A) : list string :=
  record.reason <$> new_events w (m w).

(** Every call a method made has the reason [reason]. *)
Definition carries_reason {A} (reason : CloudEventReason) (w : World) (m : M A) : Prop :=
  Forall (fun emitted_reason => emitted_reason = reason) (reasons w m).

(** Every call a method made has a reason among the declared constants. *)
Definition reasons_declared {A} (w : World) (m : M A) : Prop :=
  Forall (fun reason => reason ∈ cloudEventReasons) (reasons w m).

(** The message embeds the namespace/name and the UID of an object. *)
Definition embeds_object (message : string) (o : metav1.ObjectMeta) : Prop :=
  Contains message (namespace_name o) = true /\
  Contains message (metav1.UID o) = true.

(** The message of every call of [LoadBalancerNormalEvent] embeds the load
    balancer name, the namespace/name and the UID of both affected
    objects, and the caller's text. *)
Definition embeds_every_affected_object (G : v1.Service -> string) (w : World)
    (c : ptr CloudEventRecorder) (lbDeployment : ptr apps.Deployment)
    (lbService : ptr v1.Service) (d : apps.Deployment) (s : v1.Service)
    (reason : CloudEventReason) (text : string) : Prop :=
  Forall
    (fun message =>
       Contains message (G s) = true /\
       embeds_object message (apps.ObjectMeta d) /\
       embeds_object message (v1.ObjectMeta s) /\
       Contains message text = true)
    (messages w (LoadBalancerNormalEvent G c lbDeployment lbService reason text)).

(** The message embeds the load balancer name, the namespace/name of the
    Deployment when there is one, the namespace/name and the UID of the
    Service, and the caller's text. *)
Definition embeds_parts (message lbName : string) (d : option apps.Deployment)
    (s : v1.Service) (text : string) : Prop :=
  Contains message lbName = true /\
  match d with
  | Some d => Contains message (namespace_name (apps.ObjectMeta d)) = true
  | None => True
  end /\
  embeds_object message (v1.ObjectMeta s) /\
  Contains message text = true.

(** The constructor returned a pointer to a new recorder named [name]
    whose [Recorder] has an event source of component [name]. *)
Definition constructs (name : string) (w : World)
    (m : M (ptr CloudEventRecorder)) : Prop :=
  exists l w' r,
    m w = Returns (Ptr l) w' /\
    recorders w !! l = None /\
    lookup_ptr w' (Ptr l) = Some {| Name := name; Recorder := Some r |} /\
    v1.Component (record.source r) = name.

(** ** Example inputs *)

(** An instance of the load balancer name helper. *)
Definition example_lbName (s : v1.Service) : string :=
  "lb-" +:+ metav1.UID (v1.ObjectMeta s).

Definition example_recorder : record.recorderImpl :=
  {| record.source := {| v1.Component := "ibm-cloud-provider" |};
     record.broadcaster := record.NewBroadcaster |}.

Definition example_deployment : apps.Deployment :=
  {| apps.ObjectMeta :=
       {| metav1.Namespace := "ibm-system"; metav1.Name := "lb-deployment";
          metav1.UID := "7c1f" |} |}.

Definition example_service : v1.Service :=
  {| v1.ObjectMeta :=
       {| metav1.Namespace := "default"; metav1.Name := "web";
          metav1.UID := "a9e2" |} |}.

(** A world with one recorder, one Deployment and one Service, each at
    address 1 of its heap, and nothing logged. *)
Definition example_world : World :=
  {| recorders := {[ 1%positive := {| Name := "ibm-cloud-provider";
                                      Recorder := Some example_recorder |} ]};
     deployments := {[ 1%positive := example_deployment ]};
     services := {[ 1%positive := example_service ]};
     emitted := [] |}.

(** A second world: the same Deployment and Service at other addresses,
    another recorder, and a call already logged. *)
Definition other_recorder : record.recorderImpl :=
  {| record.source := {| v1.Component := "other-cloud-provider" |};
     record.broadcaster := record.StartLogging record.NewBroadcaster |}.

Definition other_world : World :=
  {| recorders := {[ 2%positive := {| Name := "other-cloud-provider";
                                      Recorder := Some other_recorder |} ]};
     deployments := {[ 5%positive := example_deployment ]};
     services := {[ 7%positive := example_service ]};
     emitted := [ call other_recorder (runtime.ServiceObject (Ptr 7%positive))
                    v1.EventTypeNormal CloudLoadBalancerNormalEvent "earlier" ] |}.

(** An instance of [subnetConfigErrorField]: a reason code and a message. *)
Definition example_errorField : Type := string * string.

(** A configuration with errors on one vlan and none on the other. *)
Definition example_vlanErrors : gmap string (list example_errorField) :=
  <["2263901" := [ ("ErrorSubnetLimitReached", "no more subnets");
                   ("ErrorSoftlayerDown", "unable to reach the provider");
                   ("ErrorSubnetLimitReached", "no more subnets") ]]>
    (<["2263903" := []]> ∅).

(** ** Further properties of one invocation *)

(** A warning method either panics, leaving the world as it was, or
    returns a non-nil error after exactly [n] calls of [Recorder.Event],
    each of type Warning and with the text of the error as message. *)
Definition panics_or_warns (n : nat) (w : World) (m : M errors.error) : Prop :=
  m w = Panics w \/
  exists e new,
    m w = Returns (Some e) (log_events w new) /\
    length new = n /\
    Forall (fun ev => record.eventtype ev = v1.EventTypeWarning /\
                      record.message ev = errors.Error e) new.

(** Some recorder is reachable through the receiver [c]. *)
Definition usable (w : World) (c : ptr CloudEventRecorder) : Prop :=
  exists r, receiver w c r.

(** The recorder [NewCloudEventRecorderV1] builds for a provider name and
    an events client. *)
Definition built_recorder (providerName : string)
    (eventInterface : v1core.EventInterface) : record.recorderImpl :=
  {| record.source := {| v1.Component := providerName +:+ "-cloud-provider" |};
     record.broadcaster :=
       {| record.logging := true;
          record.sinks := [ {| v1core.Interface := eventInterface |} ] |} |}.

(** The world after [cr] was allocated in the heap of the recorders. *)
Definition with_recorder (w : World) (cr : CloudEventRecorder) : World :=
  set_heap (<[fresh (dom (recorders w)) := cr]> (recorders w)) w.

(** ** The entries of the portable subnet message *)

(** [strings.Join(elems, sep)]. *)
Fixpoint Join (elems : list string) (sep : string) : string :=
  match elems with
  | [] => ""
  | x :: rest =>
      match rest with
      | [] => x
      | _ :: _ => x +:+ sep +:+ Join rest sep
      end
  end.

Section PortableSubnetEntries.

Variable subnetConfigErrorField : Type.
Variable ErrorReasonCode : subnetConfigErrorField -> string.
Variable ErrorMessage : subnetConfigErrorField -> string.
Variable errors_order :
  nat -> gmap string (subnetConfigErrors subnetConfigErrorField) ->
  list (string * subnetConfigErrors subnetConfigErrorField).

(** The text one entry of [errors] contributes to the message. *)
Definition error_entry (tempError : subnetConfigErrors subnetConfigErrorField) : string :=
  "[" +:+ ErrorReasonCode (errorField tempError) +:+ ": "
      +:+ ErrorMessage (errorField tempError)
      +:+ " - Number of Occurrences: " +:+ pretty (occurrences tempError) +:+ ".]".

(** The subnet errors of a vlan with the reason code [code]. *)
Definition with_code (code : string) (es : list subnetConfigErrorField) :
    list subnetConfigErrorField :=
  filter (fun e => ErrorReasonCode e = code) es.

(** The entries of [errors] the loop over the vlans ranges over, round
    after round from round [i] on, in the order it meets them. *)
Fixpoint reported (i : nat) (vlans : list (string * list subnetConfigErrorField))
    (errors : gmap string (subnetConfigErrors subnetConfigErrorField)) :
    list (subnetConfigErrors subnetConfigErrorField) :=
  match vlans with
  | [] => []
  | (_, portableSubnetVlanError) :: vlans' =>
      let errors :=
        foldl (count_error subnetConfigErrorField ErrorReasonCode) errors
          portableSubnetVlanError in
      (errors_order i errors).*2 ++ reported (S i) vlans' errors
  end.

(** Every entry of [errors] is filed under the reason code of its error. *)
Definition keyed (errors : gmap string (subnetConfigErrors subnetConfigErrorField)) : Prop :=
  forall code e, errors !! code = Some e -> ErrorReasonCode (errorField e) = code.

End PortableSubnetEntries.

(** * Fake client of the CSIDrivers (package [fake]) *)

Module fake.

(** ** What the package takes from elsewhere *)

(** [schema.GroupVersion] with [WithResource] and [WithKind]. *)
Record GroupVersion := { Group : string; Version : string }.

Record GroupVersionResource := {
  gvrGroup : string;
  gvrVersion : string;
  Resource : string
}.

Record GroupVersionKind := {
  gvkGroup : string;
  gvkVersion : string;
  Kind : string
}.

Definition WithResource (gv : GroupVersion) (resource : string) : GroupVersionResource :=
  {| gvrGroup := Group gv; gvrVersion := Version gv; Resource := resource |}.

Definition WithKind (gv : GroupVersion) (kind : string) : GroupVersionKind :=
  {| gvkGroup := Group gv; gvkVersion := Version gv; Kind := kind |}.

(** [types.PatchType] and [types.ApplyPatchType]. *)
Definition PatchType := string.
Definition ApplyPatchType : PatchType := "application/apply-patch+yaml".

(** The types and functions of other packages the methods use.  None is
    declared under the sources at hand, so each is a parameter:
    - [CSIDriver] is [v1beta1.CSIDriver] with its [Labels] and its zero
      value, [ListMeta] is [metav1.ListMeta] with its zero value;
    - [ApplyConfiguration_Name c] is the field access [cSIDriver.Name],
      [None] when the access itself panics and [Some name] for the
      [*string] it yields;
    - [Marshal] is [json.Marshal];
    - a [Selector] is a non-nil [labels.Selector], [Everything] is
      [labels.Everything()], and [ExtractFromListOptions opts] is the
      first result of [testing.ExtractFromListOptions(opts)], [None] when
      the call panics and [Some None] for a nil selector. *)
Class Imports := {
  CSIDriver : Type;
  Labels : CSIDriver -> gmap string string;
  zero_CSIDriver : CSIDriver;
  ListMeta : Type;
  zero_ListMeta : ListMeta;
  CSIDriverApplyConfiguration : Type;
  ApplyConfiguration_Name : CSIDriverApplyConfiguration -> option (option string);
  Marshal : CSIDriverApplyConfiguration -> list Byte.byte * errors.error;
  GetOptions : Type;
  ListOptions : Type;
  CreateOptions : Type;
  UpdateOptions : Type;
  DeleteOptions : Type;
  PatchOptions : Type;
  ApplyOptions : Type;
  ToPatchOptions : ApplyOptions -> PatchOptions;
  Selector : Type;
  Matches : Selector -> gmap string string -> bool;
  Everything : Selector;
  ExtractFromListOptions : ListOptions -> option (option Selector);
  WatchInterface : Type;
  SchemeGroupVersion : GroupVersion
}.

Section Objects.

Context `{Imports}.

(** [v1beta1.CSIDriverList], as far as [List] reads and writes it. *)
Record CSIDriverList := {
  listMeta : ListMeta;
  Items : list CSIDriver
}.

(** The [runtime.Object] values the fake handles: the nil interface
    value, a [*v1beta1.CSIDriver] or a [*v1beta1.CSIDriverList] (either
    pointer may be nil), or a value of another type. *)
Inductive Object :=
| NilObject
| CSIDriverObject (p : option CSIDriver)
| CSIDriverListObject (p : option CSIDriverList)
| OtherObject (type_name : string).

(** The actions, named after the functions of package [testing] that
    build them.  The three that take list options are built through
    [with_list_options] below, which fails as the functions do. *)
Inductive Action :=
| NewRootGetActionWithOptions
    (resource : GroupVersionResource) (name : string) (opts : GetOptions)
| NewRootListActionWithOptions
    (resource : GroupVersionResource) (kind : GroupVersionKind) (opts : ListOptions)
| NewRootWatchActionWithOptions
    (resource : GroupVersionResource) (opts : ListOptions)
| NewRootCreateActionWithOptions
    (resource : GroupVersionResource) (object : option CSIDriver) (opts : CreateOptions)
| NewRootUpdateActionWithOptions
    (resource : GroupVersionResource) (object : option CSIDriver) (opts : UpdateOptions)
| NewRootDeleteActionWithOptions
    (resource : GroupVersionResource) (name : string) (opts : DeleteOptions)
| NewRootDeleteCollectionActionWithOptions
    (resource : GroupVersionResource) (opts : DeleteOptions) (listOpts : ListOptions)
| NewRootPatchSubresourceActionWithOptions
    (resource : GroupVersionResource) (name : string) (pt : PatchType)
    (data : list Byte.byte) (opts : PatchOptions) (subresources : list string).

End Objects.

(** The [testing.Fake] behind a client: its state, and what [Invokes] and
    [InvokesWatch] return and leave behind when they return. *)
Class Testing `{Imports} := {
  Tracker : Type;
  Invokes : Action -> Object -> Tracker -> (Object * errors.error) * Tracker;
  InvokesWatch : Action -> Tracker -> (WatchInterface * errors.error) * Tracker
}.

Section FakeCSIDrivers.

Context `{Testing}.

(** ** Calls on the fake *)

Inductive outcome (A : Type) : Type :=
| Returns (a : A) (t : Tracker)
| Panics (t : Tracker).
Arguments Returns {A} a t.
Arguments Panics {A} t.

Definition F (A : Type) : Type := Tracker -> outcome A.

Definition ret {A} (a : A) : F A := fun t => Returns a t.

Definition bind {A B} (m : F A) (k : A -> F B) : F B := fun t =>
  match m t with
  | Returns a t' => k a t'
  | Panics t' => Panics t'
  end.

Definition panic {A} : F A := fun t => Panics t.

(** [type FakeStorageV1beta1 struct { *testing.Fake }], with the one
    [testing.Fake] whose state the calls thread. *)
Inductive FakeStorageV1beta1 := TheFake.

(** [type FakeCSIDrivers struct { Fake *FakeStorageV1beta1 }] *)
Record FakeCSIDrivers := { Fake : option FakeStorageV1beta1 }.

(** [c.Fake.Invokes(action, defaultReturnObj)]: a nil [c] or a nil
    [c.Fake] panics. *)
Definition c_Fake_Invokes (c : option FakeCSIDrivers) (action : Action)
    (defaultReturnObj : Object) : F (Object * errors.error) := fun t =>
  match c with
  | None => Panics t
  | Some c' =>
      match Fake c' with
      | None => Panics t
      | Some TheFake =>
          let (r, t') := Invokes action defaultReturnObj t in Returns r t'
      end
  end.

Definition c_Fake_InvokesWatch (c : option FakeCSIDrivers) (action : Action) :
    F (WatchInterface * errors.error) := fun t =>
  match c with
  | None => Panics t
  | Some c' =>
      match Fake c' with
      | None => Panics t
      | Some TheFake => let (r, t') := InvokesWatch action t in Returns r t'
      end
  end.

(** The type assertion [obj.( *v1beta1.CSIDriver)]. *)
Definition assert_CSIDriver (obj : Object) : F (option CSIDriver) :=
  match obj with
  | CSIDriverObject p => ret p
  | _ => panic
  end.

(** The type assertion [obj.( *v1beta1.CSIDriverList)]. *)
Definition assert_CSIDriverList (obj : Object) : F (option CSIDriverList) :=
  match obj with
  | CSIDriverListObject p => ret p
  | _ => panic
  end.

(** A field of the struct a pointer refers to. *)
Definition field_of {A B} (p : option A) (f : A -> B) : F B :=
  match p with
  | Some a => ret (f a)
  | None => panic
  end.

(** [testing.NewRootListActionWithOptions],
    [testing.NewRootWatchActionWithOptions] and
    [testing.NewRootDeleteCollectionActionWithOptions] call
    [testing.ExtractFromListOptions] on the list options they are given
    and panic when it panics; they build [action] otherwise. *)
Definition with_list_options (opts : ListOptions) (action : Action) : F Action :=
  match ExtractFromListOptions opts with
  | None => panic
  | Some _ => ret action
  end.

(** ** The resource *)

Definition csidriversResource : GroupVersionResource :=
  WithResource SchemeGroupVersion "csidrivers".

Definition csidriversKind : GroupVersionKind :=
  WithKind SchemeGroupVersion "CSIDriver".

(** ** The methods *)

(** What [Get], [Create], [Update], [Patch] and [Apply] do with the
    answer of the fake. *)
Definition result_or_empty (emptyResult : option CSIDriver)
    (answer : Object * errors.error) : F (option CSIDriver * errors.error) :=
  let (obj, err) := answer in
  match obj with
  | NilObject => ret (emptyResult, err)
  | _ => bind (assert_CSIDriver obj) (fun result => ret (result, err))
  end.

(** [Get] takes name of the cSIDriver, and returns the corresponding
    cSIDriver object, and an error if there is any. *)
Definition Get (c : option FakeCSIDrivers) (name : string) (options : GetOptions) :
    F (option CSIDriver * errors.error) :=
  let emptyResult := Some zero_CSIDriver in
  bind (c_Fake_Invokes c (NewRootGetActionWithOptions csidriversResource name options)
          (CSIDriverObject emptyResult))
    (result_or_empty emptyResult).

(** [List] takes label and field selectors, and returns the list of
    CSIDrivers that match those selectors. *)
Definition List (c : option FakeCSIDrivers) (opts : ListOptions) :
    F (option CSIDriverList * errors.error) :=
  let emptyResult := Some {| listMeta := zero_ListMeta; Items := [] |} in
  bind (with_list_options opts
          (NewRootListActionWithOptions csidriversResource csidriversKind opts))
    (fun action =>
  bind (c_Fake_Invokes c action (CSIDriverListObject emptyResult))
    (fun '(obj, err) =>
       match obj with
       | NilObject => ret (emptyResult, err)
       | _ =>
           match ExtractFromListOptions opts with
           | None => panic
           | Some label =>
               let label :=
                 match label with
                 | None => Everything
                 | Some label => label
                 end in
               bind (assert_CSIDriverList obj) (fun objList =>
               bind (field_of objList listMeta) (fun meta =>
               let list := {| listMeta := meta; Items := [] |} in
               bind (assert_CSIDriverList obj) (fun objList =>
               bind (field_of objList Items) (fun items =>
               let list :=
                 foldl
                   (fun list item =>
                      if Matches label (Labels item)
                      then {| listMeta := listMeta list;
                              Items := Items list ++ [item] |}
                      else list)
                   list items in
               ret (Some list, err)))))
           end
       end)).

(** [Watch] returns a [watch.Interface] that watches the requested
    cSIDrivers. *)
Definition Watch (c : option FakeCSIDrivers) (opts : ListOptions) :
    F (WatchInterface * errors.error) :=
  bind (with_list_options opts (NewRootWatchActionWithOptions csidriversResource opts))
    (fun action => c_Fake_InvokesWatch c action).

(** [Create] takes the representation of a cSIDriver and creates it. *)
Definition Create (c : option FakeCSIDrivers) (cSIDriver : option CSIDriver)
    (opts : CreateOptions) : F (option CSIDriver * errors.error) :=
  let emptyResult := Some zero_CSIDriver in
  bind (c_Fake_Invokes c
          (NewRootCreateActionWithOptions csidriversResource cSIDriver opts)
          (CSIDriverObject emptyResult))
    (result_or_empty emptyResult).

(** [Update] takes the representation of a cSIDriver and updates it. *)
Definition Update (c : option FakeCSIDrivers) (cSIDriver : option CSIDriver)
    (opts : UpdateOptions) : F (option CSIDriver * errors.error) :=
  let emptyResult := Some zero_CSIDriver in
  bind (c_Fake_Invokes c
          (NewRootUpdateActionWithOptions csidriversResource cSIDriver opts)
          (CSIDriverObject emptyResult))
    (result_or_empty emptyResult).

(** [Delete] takes name of the cSIDriver and deletes it. *)
Definition Delete (c : option FakeCSIDrivers) (name : string) (opts : DeleteOptions) :
    F errors.error :=
  bind (c_Fake_Invokes c (NewRootDeleteActionWithOptions csidriversResource name opts)
          (CSIDriverObject (Some zero_CSIDriver)))
    (fun '(_, err) => ret err).

(** [DeleteCollection] deletes a collection of objects. *)
Definition DeleteCollection (c : option FakeCSIDrivers) (opts : DeleteOptions)
    (listOpts : ListOptions) : F errors.error :=
  bind (with_list_options listOpts
          (NewRootDeleteCollectionActionWithOptions csidriversResource opts listOpts))
    (fun action =>
  bind (c_Fake_Invokes c action
          (CSIDriverListObject (Some {| listMeta := zero_ListMeta; Items := [] |})))
    (fun '(_, err) => ret err)).

(** [Patch] applies the patch and returns the patched cSIDriver. *)
Definition Patch (c : option FakeCSIDrivers) (name : string) (pt : PatchType)
    (data : list Byte.byte) (opts : PatchOptions) (subresources : list string) :
    F (option CSIDriver * errors.error) :=
  let emptyResult := Some zero_CSIDriver in
  bind (c_Fake_Invokes c
          (NewRootPatchSubresourceActionWithOptions csidriversResource name pt data
             opts subresources)
          (CSIDriverObject emptyResult))
    (result_or_empty emptyResult).

(** [fmt.Errorf] with a format without verbs and no operands. *)
Definition Errorf (format : string) : errors.error :=
  errors.New (fmt.Sprintf format []).

(** [Apply] takes the given apply declarative configuration, applies it
    and returns the applied cSIDriver. *)
Definition Apply (c : option FakeCSIDrivers)
    (cSIDriver : option CSIDriverApplyConfiguration) (opts : ApplyOptions) :
    F (option CSIDriver * errors.error) :=
  match cSIDriver with
  | None => ret (None, Errorf "cSIDriver provided to Apply must not be nil")
  | Some config =>
      let (data, err) := Marshal config in
      match err with
      | Some _ => ret (None, err)
      | None =>
          match ApplyConfiguration_Name config with
          | None => panic
          | Some None => ret (None, Errorf "cSIDriver.Name must be provided to Apply")
          | Some (Some name) =>
              let emptyResult := Some zero_CSIDriver in
              bind (c_Fake_Invokes c
                      (NewRootPatchSubresourceActionWithOptions csidriversResource
                         name ApplyPatchType data (ToPatchOptions opts) [])
                      (CSIDriverObject emptyResult))
                (result_or_empty emptyResult)
          end
      end
  end.

End FakeCSIDrivers.

Arguments Returns {_ _ _} a t.
Arguments Panics {_ _ _} t.

End fake.

(** ** Properties of a call on the fake *)

Section FakeVocabulary.

Context `{fake.Testing}.

(** The outcome of a method that relays the answer of the fake to the
    action [action] with the default object [emptyResult]: the empty
    result for a nil answer, the answered pointer for a
    [*v1beta1.CSIDriver], and a panic for an answer of another type. *)
Definition relays_answer (c : option fake.FakeCSIDrivers) (action : fake.Action)
    (m : fake.F (option fake.CSIDriver * errors.error)) (t : fake.Tracker) : Prop :=
  match c with
  | Some {| fake.Fake := Some _ |} =>
      match fake.Invokes action (fake.CSIDriverObject (Some fake.zero_CSIDriver)) t with
      | (fake.NilObject, err, t') => m t = fake.Returns (Some fake.zero_CSIDriver, err) t'
      | (fake.CSIDriverObject p, err, t') => m t = fake.Returns (p, err) t'
      | (_, _, t') => m t = fake.Panics t'
      end
  | _ => m t = fake.Panics t
  end.

(** The result pointer of a call that returned it with an error. *)
Definition fake_result {A} (o : fake.outcome (option A * errors.error)) : option A :=
  match o with
  | fake.Returns (result, _) _ => result
  | fake.Panics _ => None
  end.

(** The receiver and its [Fake] are not nil. *)
Definition fake_ready (c : option fake.FakeCSIDrivers) : Prop :=
  exists c', c = Some c' /\ fake.Fake c' = Some fake.TheFake.

End FakeVocabulary.

(** ** An instance of the fake *)

(** CSIDrivers are a name with labels, a [ListMeta] is a resource
    version, an apply configuration is its embedded pointer to the
    metadata with the [Name] in it (marshalling fails for the empty
    name), list options are a label selector, no label selector, or a
    label selector that cannot be parsed, and a selector is a set of
    labels that must all be present. *)
Definition example_Imports : fake.Imports :=
  {| fake.CSIDriver := string * gmap string string;
     fake.Labels := snd;
     fake.zero_CSIDriver := ("", ∅);
     fake.ListMeta := string;
     fake.zero_ListMeta := "";
     fake.CSIDriverApplyConfiguration := option (option string);
     fake.ApplyConfiguration_Name := fun config => config;
     fake.Marshal := fun config =>
       match config with
       | Some (Some "") => ([], errors.New "json: unsupported value")
       | _ => ([], None)
       end;
     fake.GetOptions := unit;
     fake.ListOptions := option (option (gmap string string));
     fake.CreateOptions := unit;
     fake.UpdateOptions := unit;
     fake.DeleteOptions := unit;
     fake.PatchOptions := unit;
     fake.ApplyOptions := unit;
     fake.ToPatchOptions := fun opts => opts;
     fake.Selector := gmap string string;
     fake.Matches := fun selector labels => bool_decide (selector ⊆ labels);
     fake.Everything := ∅;
     fake.ExtractFromListOptions := fun opts => opts;
     fake.WatchInterface := unit;
     fake.SchemeGroupVersion :=
       {| fake.Group := "storage.k8s.io"; fake.Version := "v1beta1" |} |}.

Definition example_drivers : @fake.CSIDriverList example_Imports :=
  @fake.Build_CSIDriverList example_Imports "42"
    [ ("ebs.csi", {[ "tier" := "gold" ]});
      ("nfs.csi", ∅);
      ("disk.csi", <[ "zone" := "a" ]> {[ "tier" := "gold" ]}) ].

(** A fake that keeps the actions, answers a list action with
    [example_drivers], a get action with no object and an error, and
    every other action with the default object. *)
Definition example_Testing : @fake.Testing example_Imports :=
  @fake.Build_Testing example_Imports
    (list (@fake.Action example_Imports))
    (fun action defaultReturnObj t =>
       match action with
       | fake.NewRootListActionWithOptions _ _ _ =>
           (fake.CSIDriverListObject (Some example_drivers), None, t ++ [action])
       | fake.NewRootGetActionWithOptions _ _ _ =>
           (fake.NilObject, errors.New "not found", t ++ [action])
       | _ => (defaultReturnObj, None, t ++ [action])
       end)
    (fun action t => (tt, None, t ++ [action])).

Definition example_client : option fake.FakeCSIDrivers :=
  Some {| fake.Fake := Some fake.TheFake |}.

(** The fake before any action. *)
Definition no_actions : @fake.Tracker example_Imports example_Testing :=
  @nil (@fake.Action example_Imports).

(** The fake after the actions [actions]. *)
Definition seen (actions : list (@fake.Action example_Imports)) :
    @fake.Tracker example_Imports example_Testing :=
  actions.

(** List options that select the label [tier=gold], list options without
    label selector, and list options whose label selector cannot be
    parsed. *)
Definition gold_tier : @fake.ListOptions example_Imports :=
  (Some (Some {[ "tier" := "gold" ]}) : option (option (gmap string string))).

Definition no_selector : @fake.ListOptions example_Imports :=
  (Some None : option (option (gmap string string))).

Definition bad_selector : @fake.ListOptions example_Imports :=
  (None : option (option (gmap string string))).

(** A fake whose reactor answers every action with no object and an
    error. *)
Definition failing_Testing : @fake.Testing example_Imports :=
  @fake.Build_Testing example_Imports
    (list (@fake.Action example_Imports))
    (fun action defaultReturnObj t =>
       (fake.NilObject, errors.New "injected failure", t ++ [action]))
    (fun action t => (tt, errors.New "injected failure", t ++ [action])).

Definition failing_no_actions : @fake.Tracker example_Imports failing_Testing :=
  @nil (@fake.Action example_Imports).

Definition failing_seen (actions : list (@fake.Action example_Imports)) :
    @fake.Tracker example_Imports failing_Testing :=
  actions.

(** The action of [List] for the given options. *)
Definition list_action (opts : @fake.ListOptions example_Imports) :
    @fake.Action example_Imports :=
  @fake.NewRootListActionWithOptions example_Imports
    (@fake.csidriversResource example_Imports)
    (@fake.csidriversKind example_Imports) opts.

(** * Properties *)

(** ** The monad and the log *)

Lemma log_events_app w l1 l2 :
  log_events (log_events w l1) l2 = log_events w (l1 ++ l2).
Proof. unfold log_events; simpl. by rewrite app_assoc. Qed.

Lemma new_events_log {A} (a : A) w new :
  new_events w (Returns a (log_events w new)) = new.
Proof. unfold new_events; simpl. by rewrite drop_app_length. Qed.

Lemma field_run {A B} `{Allocated A} (p : ptr A) (f : A -> B) w :
  field p f w =
  match lookup_ptr w p with
  | Some a => Returns (f a) w
  | None => Panics w
  end.
Proof.
  unfold field, mbind, M_bind, deref, lookup_ptr.
  destruct p as [|l]; [done|]. by destruct (heap w !! l).
Qed.

Lemma bind_run {A B} (m : M A) (k : A -> M B) w :
  (m ≫= k) w =
  match m w with
  | Returns a w' => k a w'
  | Panics w' => Panics w'
  end.
Proof. reflexivity. Qed.

(** ** What [fmt.Sprintf] makes of the format strings of the package *)

Lemma append_cons a s t : String a s +:+ t = String a (s +:+ t).
Proof. reflexivity. Qed.

Lemma append_nil_r s : s +:+ "" = s.
Proof. induction s as [|a s IH]; [done|]. by rewrite append_cons, IH. Qed.

Lemma append_assoc s t u : (s +:+ t) +:+ u = s +:+ t +:+ u.
Proof. induction s as [|a s IH]; [done|]. by rewrite !append_cons, IH. Qed.

Lemma Sprintf_reason (reason : CloudEventReason) :
  fmt.Sprintf "%v" [reason_arg reason] = reason.
Proof. exact (append_nil_r reason). Qed.

(** Brings both sides of a [Sprintf] equation to right-nested appends. *)
Ltac sprintf_eq :=
  unfold deployment_service_message, service_message, namespace_name;
  cbn; unfold types.NamespacedName_String; cbn;
  rewrite ?append_assoc, ?append_nil_r; reflexivity.

Lemma Sprintf_deployment_service_event lbName d s text :
  fmt.Sprintf
    "Event on cloud load balancer %v with associated deployment %v for service %v with UID %v: %v"
    [ fmt.str lbName;
      fmt.ANamespacedName {| types.Namespace := metav1.Namespace (apps.ObjectMeta d);
                             types.Name := metav1.Name (apps.ObjectMeta d) |};
      fmt.ANamespacedName {| types.Namespace := metav1.Namespace (v1.ObjectMeta s);
                             types.Name := metav1.Name (v1.ObjectMeta s) |};
      fmt.uid (metav1.UID (v1.ObjectMeta s));
      fmt.str text ]
  = deployment_service_message "Event" lbName d s text.
Proof. sprintf_eq. Qed.

Lemma Sprintf_deployment_service_error lbName d s text :
  fmt.Sprintf
    "Error on cloud load balancer %v with associated deployment %v for service %v with UID %v: %v"
    [ fmt.str lbName;
      fmt.ANamespacedName {| types.Namespace := metav1.Namespace (apps.ObjectMeta d);
                             types.Name := metav1.Name (apps.ObjectMeta d) |};
      fmt.ANamespacedName {| types.Namespace := metav1.Namespace (v1.ObjectMeta s);
                             types.Name := metav1.Name (v1.ObjectMeta s) |};
      fmt.uid (metav1.UID (v1.ObjectMeta s));
      fmt.str text ]
  = deployment_service_message "Error" lbName d s text.
Proof. sprintf_eq. Qed.

Lemma Sprintf_service_event lbName s text :
  fmt.Sprintf
    "Event on cloud load balancer %v for service %v with UID %v: %v"
    [ fmt.str lbName;
      fmt.ANamespacedName {| types.Namespace := metav1.Namespace (v1.ObjectMeta s);
                             types.Name := metav1.Name (v1.ObjectMeta s) |};
      fmt.uid (metav1.UID (v1.ObjectMeta s));
      fmt.str text ]
  = service_message "Event" lbName s text.
Proof. sprintf_eq. Qed.

Lemma Sprintf_service_error lbName s text :
  fmt.Sprintf
    "Error on cloud load balancer %v for service %v with UID %v: %v"
    [ fmt.str lbName;
      fmt.ANamespacedName {| types.Namespace := metav1.Namespace (v1.ObjectMeta s);
                             types.Name := metav1.Name (v1.ObjectMeta s) |};
      fmt.uid (metav1.UID (v1.ObjectMeta s));
      fmt.str text ]
  = service_message "Error" lbName s text.
Proof. sprintf_eq. Qed.

Lemma Sprintf_occurrences code msg (n : Z) :
  fmt.Sprintf "[%s: %s - Number of Occurrences: %d.]" [fmt.str code; fmt.str msg; fmt.int n]
  = "[" +:+ code +:+ ": " +:+ msg +:+ " - Number of Occurrences: " +:+ pretty n +:+ ".]".
Proof. sprintf_eq. Qed.

(** ** The outcome of each method, for every input *)

Lemma lookup_ptr_log {A} `{Allocated A} w new (p : ptr A) :
  heap (log_events w new) = heap w ->
  lookup_ptr (log_events w new) p = lookup_ptr w p.
Proof. intros Hh. destruct p; simpl; [done|]. by rewrite Hh. Qed.

(** One step of a method: a field access followed by the rest. *)
Lemma field_bind_run {A B C} `{Allocated A} (p : ptr A) (f : A -> B) (k : B -> M C) w :
  (field p f ≫= k) w =
  match lookup_ptr w p with
  | Some a => k (f a) w
  | None => Panics w
  end.
Proof. rewrite bind_run, field_run. by destruct (lookup_ptr w p). Qed.

Lemma Event_bind_run {C} r object eventtype reason message (k : unit -> M C) w :
  (Event (Some r) object eventtype reason message ≫= k) w =
  k tt (log_events w [call r object eventtype reason message]).
Proof. reflexivity. Qed.

(** Steps over a field access whose pointer is known to refer to an
    object. *)
Ltac field_step H := rewrite field_bind_run, H; cbv beta zeta.

Lemma LoadBalancerNormalEvent_run G c lbDeployment lbService reason eventMessage w :
  LoadBalancerNormalEvent G c lbDeployment lbService reason eventMessage w =
  match lookup_ptr w lbService, lookup_ptr w lbDeployment, lookup_ptr w c with
  | Some s, Some d, Some cr =>
      match Recorder cr with
      | Some r =>
          let message := deployment_service_message "Event" (G s) d s eventMessage in
          Returns tt
            (log_events w
               [ call r (runtime.DeploymentObject lbDeployment) v1.EventTypeNormal reason message;
                 call r (runtime.ServiceObject lbService) v1.EventTypeNormal reason message ])
      | None => Panics w
      end
  | _, _, _ => Panics w
  end.
Proof.
  unfold LoadBalancerNormalEvent, call_GetCloudProviderLoadBalancerName.
  rewrite field_bind_run.
  destruct (lookup_ptr w lbService) as [s|] eqn:Hs; [|done].
  rewrite field_bind_run.
  destruct (lookup_ptr w lbDeployment) as [d|] eqn:Hd; [|done].
  field_step Hd. do 3 field_step Hs.
  rewrite field_bind_run.
  destruct (lookup_ptr w c) as [cr|] eqn:Hc; [|done].
  destruct (Recorder cr) as [r|] eqn:Hr; [|done].
  rewrite Event_bind_run, field_bind_run, lookup_ptr_log, Hc, Hr by done.
  unfold Event. rewrite log_events_app, Sprintf_reason, Sprintf_deployment_service_event.
  reflexivity.
Qed.

Lemma LoadBalancerWarningEvent_run G c lbDeployment lbService reason errorMessage w :
  LoadBalancerWarningEvent G c lbDeployment lbService reason errorMessage w =
  match lookup_ptr w lbService, lookup_ptr w lbDeployment, lookup_ptr w c with
  | Some s, Some d, Some cr =>
      match Recorder cr with
      | Some r =>
          let message := deployment_service_message "Error" (G s) d s errorMessage in
          Returns (errors.New message)
            (log_events w
               [ call r (runtime.DeploymentObject lbDeployment) v1.EventTypeWarning reason message;
                 call r (runtime.ServiceObject lbService) v1.EventTypeWarning reason message ])
      | None => Panics w
      end
  | _, _, _ => Panics w
  end.
Proof.
  unfold LoadBalancerWarningEvent, call_GetCloudProviderLoadBalancerName.
  rewrite field_bind_run.
  destruct (lookup_ptr w lbService) as [s|] eqn:Hs; [|done].
  rewrite field_bind_run.
  destruct (lookup_ptr w lbDeployment) as [d|] eqn:Hd; [|done].
  field_step Hd. do 3 field_step Hs.
  rewrite field_bind_run.
  destruct (lookup_ptr w c) as [cr|] eqn:Hc; [|done].
  destruct (Recorder cr) as [r|] eqn:Hr; [|done].
  rewrite Event_bind_run, field_bind_run, lookup_ptr_log, Hc, Hr by done.
  rewrite Event_bind_run, log_events_app, Sprintf_reason, Sprintf_deployment_service_error.
  reflexivity.
Qed.

Lemma LoadBalancerServiceWarningEvent_run G c lbService reason errorMessage w :
  LoadBalancerServiceWarningEvent G c lbService reason errorMessage w =
  match lookup_ptr w lbService, lookup_ptr w c with
  | Some s, Some cr =>
      match Recorder cr with
      | Some r =>
          let message := service_message "Error" (G s) s errorMessage in
          Returns (errors.New message)
            (log_events w
               [ call r (runtime.ServiceObject lbService) v1.EventTypeWarning reason message ])
      | None => Panics w
      end
  | _, _ => Panics w
  end.
Proof.
  unfold LoadBalancerServiceWarningEvent, call_GetCloudProviderLoadBalancerName.
  rewrite field_bind_run.
  destruct (lookup_ptr w lbService) as [s|] eqn:Hs; [|done].
  do 3 field_step Hs.
  rewrite field_bind_run.
  destruct (lookup_ptr w c) as [cr|] eqn:Hc; [|done].
  destruct (Recorder cr) as [r|] eqn:Hr; [|done].
  rewrite Event_bind_run, Sprintf_reason, Sprintf_service_error.
  reflexivity.
Qed.

Lemma VpcLoadBalancerServiceWarningEvent_run c lbService reason lbName errorMessage w :
  VpcLoadBalancerServiceWarningEvent c lbService reason lbName errorMessage w =
  match lookup_ptr w lbService, lookup_ptr w c with
  | Some s, Some cr =>
      match Recorder cr with
      | Some r =>
          let message := service_message "Error" lbName s errorMessage in
          Returns (errors.New message)
            (log_events w
               [ call r (runtime.ServiceObject lbService) v1.EventTypeWarning reason message ])
      | None => Panics w
      end
  | _, _ => Panics w
  end.
Proof.
  unfold VpcLoadBalancerServiceWarningEvent.
  rewrite field_bind_run.
  destruct (lookup_ptr w lbService) as [s|] eqn:Hs; [|done].
  do 2 field_step Hs.
  rewrite field_bind_run.
  destruct (lookup_ptr w c) as [cr|] eqn:Hc; [|done].
  destruct (Recorder cr) as [r|] eqn:Hr; [|done].
  rewrite Event_bind_run, Sprintf_reason, Sprintf_service_error.
  reflexivity.
Qed.

Lemma VpcLoadBalancerServiceNormalEvent_run c lbService reason lbName eventMessage w :
  VpcLoadBalancerServiceNormalEvent c lbService reason lbName eventMessage w =
  match lookup_ptr w lbService, lookup_ptr w c with
  | Some s, Some cr =>
      match Recorder cr with
      | Some r =>
          let message := service_message "Event" lbName s eventMessage in
          Returns tt
            (log_events w
               [ call r (runtime.ServiceObject lbService) v1.EventTypeNormal reason message ])
      | None => Panics w
      end
  | _, _ => Panics w
  end.
Proof.
  unfold VpcLoadBalancerServiceNormalEvent.
  rewrite field_bind_run.
  destruct (lookup_ptr w lbService) as [s|] eqn:Hs; [|done].
  do 2 field_step Hs.
  rewrite field_bind_run.
  destruct (lookup_ptr w c) as [cr|] eqn:Hc; [|done].
  destruct (Recorder cr) as [r|] eqn:Hr; [|done].
  unfold Event. rewrite Sprintf_reason, Sprintf_service_event.
  reflexivity.
Qed.

(** ** Outcomes under the usual preconditions *)

Section Ready.

Variable G : v1.Service -> string.
Variables (w : World) (c : ptr CloudEventRecorder) (r : record.recorderImpl).
Variables (lbDeployment : ptr apps.Deployment) (d : apps.Deployment).
Variables (lbService : ptr v1.Service) (s : v1.Service).
Hypothesis Hc : receiver w c r.
Hypothesis Hd : lookup_ptr w lbDeployment = Some d.
Hypothesis Hs : lookup_ptr w lbService = Some s.

Lemma LoadBalancerNormalEvent_ready reason eventMessage :
  LoadBalancerNormalEvent G c lbDeployment lbService reason eventMessage w =
  let message := deployment_service_message "Event" (G s) d s eventMessage in
  Returns tt
    (log_events w
       [ call r (runtime.DeploymentObject lbDeployment) v1.EventTypeNormal reason message;
         call r (runtime.ServiceObject lbService) v1.EventTypeNormal reason message ]).
Proof.
  destruct Hc as (cr & Hcr & Hr).
  by rewrite LoadBalancerNormalEvent_run, Hs, Hd, Hcr, Hr.
Qed.

Lemma LoadBalancerWarningEvent_ready reason errorMessage :
  LoadBalancerWarningEvent G c lbDeployment lbService reason errorMessage w =
  let message := deployment_service_message "Error" (G s) d s errorMessage in
  Returns (errors.New message)
    (log_events w
       [ call r (runtime.DeploymentObject lbDeployment) v1.EventTypeWarning reason message;
         call r (runtime.ServiceObject lbService) v1.EventTypeWarning reason message ]).
Proof.
  destruct Hc as (cr & Hcr & Hr).
  by rewrite LoadBalancerWarningEvent_run, Hs, Hd, Hcr, Hr.
Qed.

Lemma LoadBalancerServiceWarningEvent_ready reason errorMessage :
  LoadBalancerServiceWarningEvent G c lbService reason errorMessage w =
  let message := service_message "Error" (G s) s errorMessage in
  Returns (errors.New message)
    (log_events w
       [ call r (runtime.ServiceObject lbService) v1.EventTypeWarning reason message ]).
Proof.
  destruct Hc as (cr & Hcr & Hr).
  by rewrite LoadBalancerServiceWarningEvent_run, Hs, Hcr, Hr.
Qed.

Lemma VpcLoadBalancerServiceWarningEvent_ready reason lbName errorMessage :
  VpcLoadBalancerServiceWarningEvent c lbService reason lbName errorMessage w =
  let message := service_message "Error" lbName s errorMessage in
  Returns (errors.New message)
    (log_events w
       [ call r (runtime.ServiceObject lbService) v1.EventTypeWarning reason message ]).
Proof.
  destruct Hc as (cr & Hcr & Hr).
  by rewrite VpcLoadBalancerServiceWarningEvent_run, Hs, Hcr, Hr.
Qed.

Lemma VpcLoadBalancerServiceNormalEvent_ready reason lbName eventMessage :
  VpcLoadBalancerServiceNormalEvent c lbService reason lbName eventMessage w =
  let message := service_message "Event" lbName s eventMessage in
  Returns tt
    (log_events w
       [ call r (runtime.ServiceObject lbService) v1.EventTypeNormal reason message ]).
Proof.
  destruct Hc as (cr & Hcr & Hr).
  by rewrite VpcLoadBalancerServiceNormalEvent_run, Hs, Hcr, Hr.
Qed.

End Ready.

(** ** Errors of the warning methods *)

Lemma returns_recorded_message_intro w (m : M errors.error) message new :
  m w = Returns (errors.New message) (log_events w new) ->
  new <> [] ->
  Forall (fun ev => record.message ev = message) new ->
  returns_recorded_message w m.
Proof.
  intros Hm Hne Hall. exists {| errors.s := message |}, (log_events w new), new.
  repeat split; done.
Qed.

(** C1: with a usable receiver and non-nil Deployment and Service
    pointers, each of the three warning-event methods returns a non-nil
    error whose text is the very message of the call(s) of
    [Recorder.Event] it made in that invocation, for every reason and
    error message. *)
Theorem warning_error_is_recorded_message
    G w c r lbDeployment d lbService s reason lbName errorMessage :
  receiver w c r ->
  lookup_ptr w lbDeployment = Some d ->
  lookup_ptr w lbService = Some s ->
  returns_recorded_message w
    (LoadBalancerWarningEvent G c lbDeployment lbService reason errorMessage) /\
  returns_recorded_message w
    (LoadBalancerServiceWarningEvent G c lbService reason errorMessage) /\
  returns_recorded_message w
    (VpcLoadBalancerServiceWarningEvent c lbService reason lbName errorMessage).
Proof.
  intros Hc Hd Hs. split; [|split].
  - eapply returns_recorded_message_intro.
    + by apply LoadBalancerWarningEvent_ready.
    + done.
    + by repeat constructor.
  - eapply returns_recorded_message_intro.
    + by apply LoadBalancerServiceWarningEvent_ready.
    + done.
    + by repeat constructor.
  - eapply returns_recorded_message_intro.
    + by apply VpcLoadBalancerServiceWarningEvent_ready.
    + done.
    + by repeat constructor.
Qed.

Lemma warning_error_is_recorded_message_witness :
  returns_recorded_message example_world
    (LoadBalancerWarningEvent example_lbName (Ptr 1%positive) (Ptr 1%positive)
       (Ptr 1%positive) CreatingCloudLoadBalancerFailed "no IPs left") /\
  returns_recorded_message example_world
    (LoadBalancerServiceWarningEvent example_lbName (Ptr 1%positive)
       (Ptr 1%positive) CreatingCloudLoadBalancerFailed "no IPs left") /\
  returns_recorded_message example_world
    (VpcLoadBalancerServiceWarningEvent (Ptr 1%positive) (Ptr 1%positive)
       CreatingCloudLoadBalancerFailed "kube-lb" "no IPs left").
Proof.
  apply (warning_error_is_recorded_message example_lbName example_world
           (Ptr 1%positive) example_recorder (Ptr 1%positive) example_deployment
           (Ptr 1%positive) example_service).
  - eexists. split; vm_compute; reflexivity.
  - vm_compute. reflexivity.
  - vm_compute. reflexivity.
Defined.

(** ** The two calls of the Deployment and Service methods *)

(** C2: with a usable receiver and non-nil pointers,
    [LoadBalancerNormalEvent] and [LoadBalancerWarningEvent] each call
    [Recorder.Event] exactly twice, on the Deployment and on the Service,
    both times with the same event type (Normal, respectively Warning),
    the caller's reason and one formatted message; the error the warning
    variant returns is built from that message. *)
Theorem deployment_and_service_events_recorded
    G w c r lbDeployment d lbService s reason text :
  receiver w c r ->
  lookup_ptr w lbDeployment = Some d ->
  lookup_ptr w lbService = Some s ->
  records_deployment_then_service w
    (LoadBalancerNormalEvent G c lbDeployment lbService reason text)
    r lbDeployment lbService v1.EventTypeNormal reason (fun _ => tt) /\
  records_deployment_then_service w
    (LoadBalancerWarningEvent G c lbDeployment lbService reason text)
    r lbDeployment lbService v1.EventTypeWarning reason errors.New.
Proof.
  intros Hc Hd Hs. split.
  - eexists. by apply LoadBalancerNormalEvent_ready.
  - eexists. by apply LoadBalancerWarningEvent_ready.
Qed.

Lemma deployment_and_service_events_recorded_witness :
  records_deployment_then_service example_world
    (LoadBalancerNormalEvent example_lbName (Ptr 1%positive) (Ptr 1%positive)
       (Ptr 1%positive) CloudLoadBalancerNormalEvent "created")
    example_recorder (Ptr 1%positive) (Ptr 1%positive) v1.EventTypeNormal
    CloudLoadBalancerNormalEvent (fun _ => tt) /\
  records_deployment_then_service example_world
    (LoadBalancerWarningEvent example_lbName (Ptr 1%positive) (Ptr 1%positive)
       (Ptr 1%positive) CloudLoadBalancerNormalEvent "created")
    example_recorder (Ptr 1%positive) (Ptr 1%positive) v1.EventTypeWarning
    CloudLoadBalancerNormalEvent errors.New.
Proof.
  apply (deployment_and_service_events_recorded example_lbName example_world
           (Ptr 1%positive) example_recorder (Ptr 1%positive) example_deployment
           (Ptr 1%positive) example_service).
  - eexists. split; vm_compute; reflexivity.
  - vm_compute. reflexivity.
  - vm_compute. reflexivity.
Defined.

(** ** Substrings *)

Lemma prefix_append p r : String.prefix p (p +:+ r) = true.
Proof.
  induction p as [|a p IH]; [by destruct r|].
  rewrite append_cons. simpl. by destruct (ascii_dec a a).
Qed.

Lemma Contains_of_prefix s sub : String.prefix sub s = true -> Contains s sub = true.
Proof. intros Hp. destruct s; unfold Contains; fold Contains; by rewrite Hp. Qed.

Lemma Contains_prefix p r : Contains (p +:+ r) p = true.
Proof. apply Contains_of_prefix, prefix_append. Qed.

Lemma Contains_refl s : Contains s s = true.
Proof. rewrite <- (append_nil_r s) at 1. apply Contains_prefix. Qed.

Lemma Contains_append_r a s sub :
  Contains s sub = true -> Contains (a +:+ s) sub = true.
Proof.
  intros Hs. induction a as [|x a IH]; [done|].
  rewrite append_cons. simpl. rewrite IH. apply orb_true_r.
Qed.

Lemma deployment_service_message_embeds kind lbName d s text :
  embeds_parts (deployment_service_message kind lbName d s text) lbName (Some d) s text.
Proof.
  unfold embeds_parts, embeds_object, deployment_service_message. repeat split.
  - do 2 apply Contains_append_r. apply Contains_prefix.
  - do 4 apply Contains_append_r. apply Contains_prefix.
  - do 6 apply Contains_append_r. apply Contains_prefix.
  - do 8 apply Contains_append_r. apply Contains_prefix.
  - do 10 apply Contains_append_r. apply Contains_refl.
Qed.

Lemma service_message_embeds kind lbName s text :
  embeds_parts (service_message kind lbName s text) lbName None s text.
Proof.
  unfold embeds_parts, embeds_object, service_message. repeat split.
  - do 2 apply Contains_append_r. apply Contains_prefix.
  - do 4 apply Contains_append_r. apply Contains_prefix.
  - do 6 apply Contains_append_r. apply Contains_prefix.
  - do 8 apply Contains_append_r. apply Contains_refl.
Qed.

(** ** The message template *)

Lemma messages_log {A} (a : A) w (m : M A) new :
  m w = Returns a (log_events w new) ->
  messages w m = record.message <$> new.
Proof. intros Hm. unfold messages. by rewrite Hm, new_events_log. Qed.

Lemma reasons_log {A} (a : A) w (m : M A) new :
  m w = Returns a (log_events w new) ->
  reasons w m = record.reason <$> new.
Proof. intros Hm. unfold reasons. by rewrite Hm, new_events_log. Qed.

(** C3, as first stated, fails: the message [LoadBalancerNormalEvent]
    records for the example Deployment and Service does not contain the
    UID of the Deployment. *)
Lemma deployment_uid_not_embedded :
  ~ embeds_every_affected_object example_lbName example_world
      (Ptr 1%positive) (Ptr 1%positive) (Ptr 1%positive)
      example_deployment example_service CloudLoadBalancerNormalEvent "created".
Proof.
  unfold embeds_every_affected_object.
  replace (messages _ _) with
    [ "Event on cloud load balancer lb-a9e2 with associated deployment ibm-system/lb-deployment for service default/web with UID a9e2: created";
      "Event on cloud load balancer lb-a9e2 with associated deployment ibm-system/lb-deployment for service default/web with UID a9e2: created" ]
    by (vm_compute; reflexivity).
  intros H. apply Forall_cons_1 in H as [(_ & (_ & Huid) & _) _].
  vm_compute in Huid. discriminate.
Qed.

(** C3, amended: with a usable receiver and a non-nil Service pointer,
    the message of every call of [Recorder.Event] is the fixed template
    filled in with the load balancer name, the namespace/name and the UID
    of the Service, and the caller's text, and for the two methods that
    take a Deployment, whenever its pointer is not nil, also with the
    namespace/name of the Deployment; each of these parts occurs in the
    message.  The three methods that take no Deployment need none in the
    store.  The UID of the Deployment is not part of the template. *)
Theorem messages_follow_template
    G w c r lbDeployment lbService s reason lbName text :
  receiver w c r ->
  lookup_ptr w lbService = Some s ->
  (forall d,
     lookup_ptr w lbDeployment = Some d ->
     messages w (LoadBalancerNormalEvent G c lbDeployment lbService reason text)
       = [ deployment_service_message "Event" (G s) d s text;
           deployment_service_message "Event" (G s) d s text ] /\
     messages w (LoadBalancerWarningEvent G c lbDeployment lbService reason text)
       = [ deployment_service_message "Error" (G s) d s text;
           deployment_service_message "Error" (G s) d s text ] /\
     (forall kind,
        embeds_parts (deployment_service_message kind (G s) d s text)
          (G s) (Some d) s text)) /\
  messages w (LoadBalancerServiceWarningEvent G c lbService reason text)
    = [ service_message "Error" (G s) s text ] /\
  messages w (VpcLoadBalancerServiceWarningEvent c lbService reason lbName text)
    = [ service_message "Error" lbName s text ] /\
  messages w (VpcLoadBalancerServiceNormalEvent c lbService reason lbName text)
    = [ service_message "Event" lbName s text ] /\
  (forall kind name,
     embeds_parts (service_message kind name s text) name None s text).
Proof.
  intros Hc Hs. split_and!.
  - intros d Hd. split_and!.
    + by erewrite messages_log by by apply LoadBalancerNormalEvent_ready.
    + by erewrite messages_log by by apply LoadBalancerWarningEvent_ready.
    + intros kind. apply deployment_service_message_embeds.
  - by erewrite messages_log by by apply LoadBalancerServiceWarningEvent_ready.
  - by erewrite messages_log by by apply VpcLoadBalancerServiceWarningEvent_ready.
  - by erewrite messages_log by by apply VpcLoadBalancerServiceNormalEvent_ready.
  - intros kind name. apply service_message_embeds.
Qed.

Lemma messages_follow_template_witness :
  messages example_world
    (LoadBalancerNormalEvent example_lbName (Ptr 1%positive) (Ptr 1%positive)
       (Ptr 1%positive) CloudLoadBalancerNormalEvent "created")
    = [ deployment_service_message "Event" "lb-a9e2" example_deployment example_service "created";
        deployment_service_message "Event" "lb-a9e2" example_deployment example_service "created" ] /\
  messages example_world
    (VpcLoadBalancerServiceNormalEvent (Ptr 1%positive) (Ptr 1%positive)
       CloudLoadBalancerNormalEvent "kube-lb" "created")
    = [ service_message "Event" "kube-lb" example_service "created" ].
Proof.
  split.
  - apply (proj1 (messages_follow_template example_lbName example_world
             (Ptr 1%positive) example_recorder (Ptr 1%positive) (Ptr 1%positive)
             example_service CloudLoadBalancerNormalEvent "kube-lb" "created"
             (ex_intro _ _ (conj eq_refl eq_refl)) eq_refl) example_deployment).
    vm_compute. reflexivity.
  - apply (messages_follow_template example_lbName example_world
             (Ptr 1%positive) example_recorder NilPtr (Ptr 1%positive)
             example_service CloudLoadBalancerNormalEvent "kube-lb" "created").
    + eexists. split; vm_compute; reflexivity.
    + vm_compute. reflexivity.
Defined.

(** ** The reason of an event *)

(** C4, as first stated, fails: a call with a reason that is none of the
    declared constants records an event with that very reason. *)
Lemma undeclared_reason_is_recorded :
  ~ reasons_declared example_world
      (VpcLoadBalancerServiceNormalEvent (Ptr 1%positive) (Ptr 1%positive)
         "LoadBalancerResized" "kube-lb" "resized").
Proof.
  unfold reasons_declared.
  replace (reasons _ _) with ["LoadBalancerResized"] by (vm_compute; reflexivity).
  intros H. apply Forall_cons_1 in H as [H _].
  assert (Hd : bool_decide ("LoadBalancerResized" ∈ cloudEventReasons) = false)
    by (vm_compute; reflexivity).
  by apply bool_decide_eq_false in Hd.
Qed.

Lemma cloudEventReasons_twelve :
  length cloudEventReasons = 12%nat /\ NoDup cloudEventReasons.
Proof.
  split; [reflexivity|].
  apply (bool_decide_unpack (NoDup cloudEventReasons)). vm_compute. exact I.
Qed.

Lemma carries_reason_log {A} (a : A) reason w (m : M A) new :
  m w = Returns a (log_events w new) ->
  Forall (fun ev => record.reason ev = reason) new ->
  carries_reason reason w m.
Proof.
  intros Hm Hall. unfold carries_reason. erewrite reasons_log by done.
  by apply Forall_fmap.
Qed.

Lemma carries_reason_panic {A} reason w (m : M A) :
  m w = Panics w -> carries_reason reason w m.
Proof.
  intros Hm. unfold carries_reason, reasons, new_events. rewrite Hm. simpl.
  rewrite drop_all. apply Forall_nil_2.
Qed.

Lemma event_methods_carry_reason G w c lbDeployment lbService reason lbName text :
  carries_reason reason w
    (LoadBalancerNormalEvent G c lbDeployment lbService reason text) /\
  carries_reason reason w
    (LoadBalancerWarningEvent G c lbDeployment lbService reason text) /\
  carries_reason reason w
    (LoadBalancerServiceWarningEvent G c lbService reason text) /\
  carries_reason reason w
    (VpcLoadBalancerServiceWarningEvent c lbService reason lbName text) /\
  carries_reason reason w
    (VpcLoadBalancerServiceNormalEvent c lbService reason lbName text).
Proof.
  split_and!.
  - pose proof (LoadBalancerNormalEvent_run G c lbDeployment lbService reason text w) as Hr.
    repeat case_match; try (by apply carries_reason_panic).
    eapply carries_reason_log; [exact Hr|]. by repeat apply Forall_cons_2.
  - pose proof (LoadBalancerWarningEvent_run G c lbDeployment lbService reason text w) as Hr.
    repeat case_match; try (by apply carries_reason_panic).
    eapply carries_reason_log; [exact Hr|]. by repeat apply Forall_cons_2.
  - pose proof (LoadBalancerServiceWarningEvent_run G c lbService reason text w) as Hr.
    repeat case_match; try (by apply carries_reason_panic).
    eapply carries_reason_log; [exact Hr|]. by repeat apply Forall_cons_2.
  - pose proof (VpcLoadBalancerServiceWarningEvent_run c lbService reason lbName text w) as Hr.
    repeat case_match; try (by apply carries_reason_panic).
    eapply carries_reason_log; [exact Hr|]. by repeat apply Forall_cons_2.
  - pose proof (VpcLoadBalancerServiceNormalEvent_run c lbService reason lbName text w) as Hr.
    repeat case_match; try (by apply carries_reason_panic).
    eapply carries_reason_log; [exact Hr|]. by repeat apply Forall_cons_2.
Qed.

Lemma carries_declared_reason {A} reason w (m : M A) :
  reason ∈ cloudEventReasons -> carries_reason reason w m -> reasons_declared w m.
Proof.
  intros Hin Hall. unfold reasons_declared. eapply Forall_impl; [exact Hall|].
  by intros ? ->.
Qed.

(** C4, amended: for every input, every event a method records carries
    as its reason the [CloudEventReason] the caller passed, unchanged; it
    is therefore one of the twelve declared constants whenever the caller
    passes one of them.  With a usable receiver and a non-nil Service
    pointer the three Service methods record exactly one event with that
    reason, and with a non-nil Deployment pointer the two Deployment
    methods record exactly two. *)
Theorem reason_is_the_callers
    G w c lbDeployment lbService reason lbName text :
  (carries_reason reason w
     (LoadBalancerNormalEvent G c lbDeployment lbService reason text) /\
   carries_reason reason w
     (LoadBalancerWarningEvent G c lbDeployment lbService reason text) /\
   carries_reason reason w
     (LoadBalancerServiceWarningEvent G c lbService reason text) /\
   carries_reason reason w
     (VpcLoadBalancerServiceWarningEvent c lbService reason lbName text) /\
   carries_reason reason w
     (VpcLoadBalancerServiceNormalEvent c lbService reason lbName text)) /\
  (forall r s,
     receiver w c r ->
     lookup_ptr w lbService = Some s ->
     reasons w (LoadBalancerServiceWarningEvent G c lbService reason text) = [reason] /\
     reasons w (VpcLoadBalancerServiceWarningEvent c lbService reason lbName text)
       = [reason] /\
     reasons w (VpcLoadBalancerServiceNormalEvent c lbService reason lbName text)
       = [reason] /\
     (forall d,
        lookup_ptr w lbDeployment = Some d ->
        reasons w (LoadBalancerNormalEvent G c lbDeployment lbService reason text)
          = [reason; reason] /\
        reasons w (LoadBalancerWarningEvent G c lbDeployment lbService reason text)
          = [reason; reason])) /\
  (reason ∈ cloudEventReasons ->
   reasons_declared w
     (LoadBalancerNormalEvent G c lbDeployment lbService reason text) /\
   reasons_declared w
     (LoadBalancerWarningEvent G c lbDeployment lbService reason text) /\
   reasons_declared w
     (LoadBalancerServiceWarningEvent G c lbService reason text) /\
   reasons_declared w
     (VpcLoadBalancerServiceWarningEvent c lbService reason lbName text) /\
   reasons_declared w
     (VpcLoadBalancerServiceNormalEvent c lbService reason lbName text)) /\
  length cloudEventReasons = 12%nat /\
  NoDup cloudEventReasons.
Proof.
  pose proof (event_methods_carry_reason G w c lbDeployment lbService reason lbName text)
    as (H1 & H2 & H3 & H4 & H5).
  split; [done|]. split; [|split; [|apply cloudEventReasons_twelve]].
  - intros r s Hc Hs. split_and!.
    + by rewrite (reasons_log _ _ _ _
                    (LoadBalancerServiceWarningEvent_ready G _ _ _ _ _ Hc Hs reason text)).
    + by rewrite (reasons_log _ _ _ _
                    (VpcLoadBalancerServiceWarningEvent_ready _ _ _ _ _ Hc Hs reason
                       lbName text)).
    + by rewrite (reasons_log _ _ _ _
                    (VpcLoadBalancerServiceNormalEvent_ready _ _ _ _ _ Hc Hs reason
                       lbName text)).
    + intros d Hd. split.
      * by rewrite (reasons_log _ _ _ _
                      (LoadBalancerNormalEvent_ready G _ _ _ _ _ _ _ Hc Hd Hs reason text)).
      * by rewrite (reasons_log _ _ _ _
                      (LoadBalancerWarningEvent_ready G _ _ _ _ _ _ _ Hc Hd Hs reason text)).
  - intros Hin. split_and!; by apply (carries_declared_reason reason).
Qed.

Lemma reason_is_the_callers_witness :
  reasons example_world
    (LoadBalancerWarningEvent example_lbName (Ptr 1%positive) (Ptr 1%positive)
       (Ptr 1%positive) CloudVPCLoadBalancerNotFound "gone")
    = [ CloudVPCLoadBalancerNotFound; CloudVPCLoadBalancerNotFound ] /\
  reasons example_world
    (VpcLoadBalancerServiceNormalEvent (Ptr 1%positive) (Ptr 1%positive)
       CloudVPCLoadBalancerNotFound "kube-lb" "gone")
    = [ CloudVPCLoadBalancerNotFound ] /\
  reasons_declared example_world
    (VpcLoadBalancerServiceNormalEvent (Ptr 1%positive) (Ptr 1%positive)
       CloudVPCLoadBalancerNotFound "kube-lb" "gone").
Proof.
  pose proof (reason_is_the_callers example_lbName example_world (Ptr 1%positive)
                (Ptr 1%positive) (Ptr 1%positive) CloudVPCLoadBalancerNotFound
                "kube-lb" "gone") as (_ & Hexact & Hdeclared & _).
  destruct (Hexact example_recorder example_service) as (_ & _ & Hvpc & Hdep).
  - eexists. split; vm_compute; reflexivity.
  - vm_compute. reflexivity.
  - destruct (Hdep example_deployment) as (_ & Hwarning).
    + vm_compute. reflexivity.
    + split; [exact Hwarning|]. split; [exact Hvpc|].
      apply Hdeclared.
      apply (bool_decide_unpack (CloudVPCLoadBalancerNotFound ∈ cloudEventReasons)).
      vm_compute. exact I.
Defined.

(** ** Normal events *)

(** C5: for every input, nil pointers included, [LoadBalancerNormalEvent]
    and [VpcLoadBalancerServiceNormalEvent] have no error to return: they
    panic on a pointer that refers to nothing, or return nothing after
    recording events of type Normal only. *)
Theorem normal_methods_return_no_error
    G w c lbDeployment lbService reason lbName eventMessage :
  returns_no_error v1.EventTypeNormal w
    (LoadBalancerNormalEvent G c lbDeployment lbService reason eventMessage) /\
  returns_no_error v1.EventTypeNormal w
    (VpcLoadBalancerServiceNormalEvent c lbService reason lbName eventMessage).
Proof.
  unfold returns_no_error. split.
  - rewrite LoadBalancerNormalEvent_run.
    repeat case_match; try (by left). right. eexists. split; [done|].
    split; [done|]. by repeat apply Forall_cons_2.
  - rewrite VpcLoadBalancerServiceNormalEvent_run.
    repeat case_match; try (by left). right. eexists. split; [done|].
    split; [done|]. by repeat apply Forall_cons_2.
Qed.

(** ** Determinism *)

(** C6: two invocations of the same method with equal inputs (the same
    reason and text, pointers to equal Deployments and equal Services),
    in any two worlds and through any two usable receivers, record the
    same messages; the warning methods return the same error. *)
Theorem messages_deterministic
    G w1 w2 c1 c2 r1 r2 lbDeployment1 lbDeployment2 lbService1 lbService2
    d s reason lbName text :
  receiver w1 c1 r1 ->
  receiver w2 c2 r2 ->
  lookup_ptr w1 lbDeployment1 = Some d ->
  lookup_ptr w2 lbDeployment2 = Some d ->
  lookup_ptr w1 lbService1 = Some s ->
  lookup_ptr w2 lbService2 = Some s ->
  messages w1 (LoadBalancerNormalEvent G c1 lbDeployment1 lbService1 reason text)
    = messages w2 (LoadBalancerNormalEvent G c2 lbDeployment2 lbService2 reason text) /\
  (messages w1 (LoadBalancerWarningEvent G c1 lbDeployment1 lbService1 reason text)
     = messages w2 (LoadBalancerWarningEvent G c2 lbDeployment2 lbService2 reason text) /\
   returned (LoadBalancerWarningEvent G c1 lbDeployment1 lbService1 reason text w1)
     = returned (LoadBalancerWarningEvent G c2 lbDeployment2 lbService2 reason text w2)) /\
  (messages w1 (LoadBalancerServiceWarningEvent G c1 lbService1 reason text)
     = messages w2 (LoadBalancerServiceWarningEvent G c2 lbService2 reason text) /\
   returned (LoadBalancerServiceWarningEvent G c1 lbService1 reason text w1)
     = returned (LoadBalancerServiceWarningEvent G c2 lbService2 reason text w2)) /\
  (messages w1 (VpcLoadBalancerServiceWarningEvent c1 lbService1 reason lbName text)
     = messages w2 (VpcLoadBalancerServiceWarningEvent c2 lbService2 reason lbName text) /\
   returned (VpcLoadBalancerServiceWarningEvent c1 lbService1 reason lbName text w1)
     = returned (VpcLoadBalancerServiceWarningEvent c2 lbService2 reason lbName text w2)) /\
  messages w1 (VpcLoadBalancerServiceNormalEvent c1 lbService1 reason lbName text)
    = messages w2 (VpcLoadBalancerServiceNormalEvent c2 lbService2 reason lbName text).
Proof.
  intros Hc1 Hc2 Hd1 Hd2 Hs1 Hs2. unfold messages.
  rewrite (LoadBalancerNormalEvent_ready G _ _ _ _ _ _ _ Hc1 Hd1 Hs1),
    (LoadBalancerNormalEvent_ready G _ _ _ _ _ _ _ Hc2 Hd2 Hs2),
    (LoadBalancerWarningEvent_ready G _ _ _ _ _ _ _ Hc1 Hd1 Hs1),
    (LoadBalancerWarningEvent_ready G _ _ _ _ _ _ _ Hc2 Hd2 Hs2),
    (LoadBalancerServiceWarningEvent_ready G _ _ _ _ _ Hc1 Hs1),
    (LoadBalancerServiceWarningEvent_ready G _ _ _ _ _ Hc2 Hs2),
    (VpcLoadBalancerServiceWarningEvent_ready _ _ _ _ _ Hc1 Hs1),
    (VpcLoadBalancerServiceWarningEvent_ready _ _ _ _ _ Hc2 Hs2),
    (VpcLoadBalancerServiceNormalEvent_ready _ _ _ _ _ Hc1 Hs1),
    (VpcLoadBalancerServiceNormalEvent_ready _ _ _ _ _ Hc2 Hs2).
  cbv zeta. rewrite !new_events_log. split_and!; reflexivity.
Qed.

Lemma messages_deterministic_witness :
  messages example_world
    (LoadBalancerNormalEvent example_lbName (Ptr 1%positive) (Ptr 1%positive)
       (Ptr 1%positive) UpdatingCloudLoadBalancerFailed "quota")
  = messages other_world
      (LoadBalancerNormalEvent example_lbName (Ptr 2%positive) (Ptr 5%positive)
         (Ptr 7%positive) UpdatingCloudLoadBalancerFailed "quota").
Proof.
  refine (proj1 (messages_deterministic example_lbName example_world other_world
           (Ptr 1%positive) (Ptr 2%positive) example_recorder other_recorder
           (Ptr 1%positive) (Ptr 5%positive) (Ptr 1%positive) (Ptr 7%positive)
           example_deployment example_service UpdatingCloudLoadBalancerFailed
           "kube-lb" "quota" _ _ _ _ _ _)).
  - eexists. split; vm_compute; reflexivity.
  - eexists. split; vm_compute; reflexivity.
  - vm_compute. reflexivity.
  - vm_compute. reflexivity.
  - vm_compute. reflexivity.
  - vm_compute. reflexivity.
Defined.

(** ** Arguments are not validated *)

(** C7: the methods check nothing about their arguments.  With a usable
    receiver and non-nil Deployment and Service pointers every method
    returns, for every reason and text, and the only error of a warning
    method is the one it builds from the recorded message; a nil
    Deployment or Service pointer is dereferenced unguarded and the
    method panics, with nothing recorded. *)
Theorem arguments_are_not_validated
    G w c r lbDeployment d lbService s reason lbName text :
  receiver w c r ->
  lookup_ptr w lbDeployment = Some d ->
  lookup_ptr w lbService = Some s ->
  (completes w (LoadBalancerNormalEvent G c lbDeployment lbService reason text) /\
   returns_recorded_message w
     (LoadBalancerWarningEvent G c lbDeployment lbService reason text) /\
   returns_recorded_message w
     (LoadBalancerServiceWarningEvent G c lbService reason text) /\
   returns_recorded_message w
     (VpcLoadBalancerServiceWarningEvent c lbService reason lbName text) /\
   completes w (VpcLoadBalancerServiceNormalEvent c lbService reason lbName text)) /\
  (LoadBalancerNormalEvent G c NilPtr lbService reason text w = Panics w /\
   LoadBalancerNormalEvent G c lbDeployment NilPtr reason text w = Panics w /\
   LoadBalancerWarningEvent G c NilPtr lbService reason text w = Panics w /\
   LoadBalancerWarningEvent G c lbDeployment NilPtr reason text w = Panics w /\
   LoadBalancerServiceWarningEvent G c NilPtr reason text w = Panics w /\
   VpcLoadBalancerServiceWarningEvent c NilPtr reason lbName text w = Panics w /\
   VpcLoadBalancerServiceNormalEvent c NilPtr reason lbName text w = Panics w).
Proof.
  intros Hc Hd Hs. split.
  - split_and!.
    + eexists _, _. by apply LoadBalancerNormalEvent_ready.
    + eapply returns_recorded_message_intro;
        [by apply LoadBalancerWarningEvent_ready | done | by repeat apply Forall_cons_2].
    + eapply returns_recorded_message_intro;
        [by apply LoadBalancerServiceWarningEvent_ready | done | by repeat apply Forall_cons_2].
    + eapply returns_recorded_message_intro;
        [by apply VpcLoadBalancerServiceWarningEvent_ready | done | by repeat apply Forall_cons_2].
    + eexists _, _. by apply VpcLoadBalancerServiceNormalEvent_ready.
  - split_and!.
    + rewrite LoadBalancerNormalEvent_run, Hs. reflexivity.
    + rewrite LoadBalancerNormalEvent_run. reflexivity.
    + rewrite LoadBalancerWarningEvent_run, Hs. reflexivity.
    + rewrite LoadBalancerWarningEvent_run. reflexivity.
    + rewrite LoadBalancerServiceWarningEvent_run. reflexivity.
    + rewrite VpcLoadBalancerServiceWarningEvent_run. reflexivity.
    + rewrite VpcLoadBalancerServiceNormalEvent_run. reflexivity.
Qed.

Lemma arguments_are_not_validated_witness :
  completes example_world
    (LoadBalancerNormalEvent example_lbName (Ptr 1%positive) (Ptr 1%positive)
       (Ptr 1%positive) "" "") /\
  LoadBalancerWarningEvent example_lbName (Ptr 1%positive) NilPtr
    (Ptr 1%positive) "" "" example_world = Panics example_world.
Proof.
  pose proof (arguments_are_not_validated example_lbName example_world
           (Ptr 1%positive) example_recorder (Ptr 1%positive) example_deployment
           (Ptr 1%positive) example_service "" "kube-lb" "") as H.
  destruct H as [(Hnormal & _) (_ & _ & Hnil & _)].
  - eexists. split; vm_compute; reflexivity.
  - vm_compute. reflexivity.
  - vm_compute. reflexivity.
  - split; assumption.
Defined.

(** ** Frame *)

(** C9: for every input, each of the five event methods leaves the store
    as it found it (the receiver with its [Name] and [Recorder], every
    Deployment and every Service) and only appends to the log of the
    calls of [Recorder.Event]. *)
Theorem event_methods_preserve_store
    G w c lbDeployment lbService reason lbName text :
  preserves_store w (LoadBalancerNormalEvent G c lbDeployment lbService reason text) /\
  preserves_store w (LoadBalancerWarningEvent G c lbDeployment lbService reason text) /\
  preserves_store w (LoadBalancerServiceWarningEvent G c lbService reason text) /\
  preserves_store w (VpcLoadBalancerServiceWarningEvent c lbService reason lbName text) /\
  preserves_store w (VpcLoadBalancerServiceNormalEvent c lbService reason lbName text).
Proof.
  unfold preserves_store.
  rewrite LoadBalancerNormalEvent_run, LoadBalancerWarningEvent_run,
    LoadBalancerServiceWarningEvent_run, VpcLoadBalancerServiceWarningEvent_run,
    VpcLoadBalancerServiceNormalEvent_run.
  destruct (lookup_ptr w lbService) as [s|];
    destruct (lookup_ptr w lbDeployment) as [d|];
    destruct (lookup_ptr w c) as [[name [r|]]|];
    simpl; split_and!; try reflexivity;
    first [ by eexists | by exists []; rewrite app_nil_r ].
Qed.

(** ** Constructors *)

Lemma alloc_recorder_constructs name r w :
  v1.Component (record.source r) = name ->
  constructs name w (alloc {| Name := name; Recorder := Some r |}).
Proof.
  intros Hsrc. exists (fresh (dom (recorders w))). eexists _, r.
  split_and!; [reflexivity| |simpl; apply lookup_insert_eq|done].
  apply not_elem_of_dom, is_fresh.
Qed.

(** C10: for every provider name, [NewCloudEventRecorderV1] returns a
    pointer to a new [CloudEventRecorder] whose [Name] is the provider
    name followed by [-cloud-provider], and whose [Recorder] has an event
    source with that same string as [Component]; [NewCloudEventRecorder],
    given a clientset, does the same. *)
Theorem constructors_name_the_recorder providerName eventInterface kubeClient w :
  constructs (providerName +:+ "-cloud-provider") w
    (NewCloudEventRecorderV1 providerName eventInterface) /\
  constructs (providerName +:+ "-cloud-provider") w
    (NewCloudEventRecorder providerName (Some kubeClient)).
Proof.
  split; by apply alloc_recorder_constructs.
Qed.

(** ** Possible errors of the portable subnets *)

Lemma append_eq_empty s t : s +:+ t = "" -> s = "" /\ t = "".
Proof. destruct s; [by split | discriminate]. Qed.

Lemma starts_with_append p rest : starts_with p (p +:+ rest).
Proof. by exists rest. Qed.

Lemma ends_with_append rest q : ends_with q (rest +:+ q).
Proof. by exists rest. Qed.

Section PortableSubnetErrorsProperties.

Variable F : Type.
Variables (code msg : F -> string).
Variables (P T N R : string).
Variable vlan_order : gmap string (list F) -> list (string * list F).
Variable errors_order :
  nat -> gmap string (subnetConfigErrors F) -> list (string * subnetConfigErrors F).
Hypothesis Horders : range_orders F vlan_order errors_order.

Local Abbreviation count := (count_error F code).
Local Abbreviation append := (append_error F code msg).
Local Abbreviation loop := (vlan_loop F code msg errors_order).

Lemma append_error_nonempty errMsg e : append errMsg e <> "".
Proof.
  unfold append_error. rewrite Sprintf_occurrences.
  intros [_ H]%append_eq_empty. discriminate H.
Qed.

Lemma foldl_append_error_nonempty l errMsg :
  errMsg <> "" \/ l <> [] -> foldl append errMsg l <> "".
Proof.
  revert errMsg. induction l as [|e l IH]; intros errMsg [H|H]; simpl; try done.
  - apply IH. left. apply append_error_nonempty.
  - apply IH. left. apply append_error_nonempty.
Qed.

Lemma count_error_self errors e : is_Some (count errors e !! code e).
Proof.
  unfold count_error. destruct (errors !! code e); rewrite lookup_insert_eq; eauto.
Qed.

Lemma count_error_mono errors e k :
  is_Some (errors !! k) -> is_Some (count errors e !! k).
Proof.
  intros Hk. unfold count_error.
  destruct (errors !! code e); (destruct (decide (code e = k)) as [->|Hne];
    [rewrite lookup_insert_eq; eauto | by rewrite lookup_insert_ne]).
Qed.

Lemma foldl_count_error_mono es errors k :
  is_Some (errors !! k) -> is_Some (foldl count errors es !! k).
Proof.
  revert errors. induction es as [|e es IH]; intros errors Hk; simpl; [done|].
  by apply IH, count_error_mono.
Qed.

Lemma foldl_count_error_elem es errors e :
  e ∈ es -> is_Some (foldl count errors es !! code e).
Proof.
  revert errors. induction es as [|e' es IH]; intros errors He; simpl.
  - by apply elem_of_nil in He.
  - apply elem_of_cons in He as [->|He]; [|by apply IH].
    apply foldl_count_error_mono, count_error_self.
Qed.

Lemma errors_order_empty i : errors_order i ∅ = [].
Proof.
  destruct Horders as [_ He]. apply Permutation_nil_r.
  by rewrite He, map_to_list_empty.
Qed.

Lemma errors_order_nonempty i errors k :
  is_Some (errors !! k) -> (errors_order i errors).*2 <> [].
Proof.
  intros [v Hv] Hnil. destruct Horders as [_ He].
  apply fmap_nil_inv in Hnil.
  apply elem_of_map_to_list in Hv. rewrite <- (He i), Hnil in Hv.
  by apply elem_of_nil in Hv.
Qed.

Lemma vlan_loop_keeps_nonempty vlans i errors errMsg :
  errMsg <> "" -> loop i vlans errors errMsg <> "".
Proof.
  revert i errors errMsg.
  induction vlans as [|[k es] vlans IH]; intros i errors errMsg Hne; simpl; [done|].
  apply IH, foldl_append_error_nonempty. by left.
Qed.

Lemma vlan_loop_some_error vlans i errors errMsg k es e :
  (k, es) ∈ vlans -> e ∈ es -> loop i vlans errors errMsg <> "".
Proof.
  revert i errors errMsg.
  induction vlans as [|[k' es'] vlans IH]; intros i errors errMsg Hin He; simpl.
  - by apply elem_of_nil in Hin.
  - apply elem_of_cons in Hin as [Heq|Hin]; [|by eapply IH].
    injection Heq as <- <-.
    apply vlan_loop_keeps_nonempty, foldl_append_error_nonempty. right.
    eapply errors_order_nonempty, foldl_count_error_elem, He.
Qed.

Lemma vlan_loop_no_error vlans i :
  Forall (fun vlan => vlan.2 = []) vlans -> loop i vlans ∅ "" = "".
Proof.
  revert i. induction vlans as [|[k es] vlans IH]; intros i Hall; simpl; [done|].
  apply Forall_cons_1 in Hall as [Hes Hall]. simpl in Hes. subst es. simpl.
  rewrite errors_order_empty. simpl. by apply IH.
Qed.

(** The two shapes of the result. *)
Lemma getLoadBalancerPortableSubnetPossibleErrors_shape m :
  let result :=
    getLoadBalancerPortableSubnetPossibleErrors F code msg P T N R
      vlan_order errors_order m in
  let errMsg := loop 0%nat (vlan_order m) ∅ "" in
  (errMsg = "" /\ result = N +:+ " " +:+ R) \/
  (errMsg <> "" /\ result = P +:+ " " +:+ errMsg +:+ " " +:+ T).
Proof.
  cbv zeta. unfold getLoadBalancerPortableSubnetPossibleErrors.
  destruct (String.eqb_spec (loop 0%nat (vlan_order m) ∅ "") "") as [Heq|Hne]; simpl.
  - left. by rewrite Heq.
  - by right.
Qed.

End PortableSubnetErrorsProperties.

(** C8: whatever order the ranges over the two maps take, an argument
    whose vlans all have an empty error list (the empty map included)
    yields exactly [lbNoIPsMessage + " " + lbDocReferenceMessage], and an
    argument with at least one subnet error yields a string that starts
    with [lbPortableSubnetMessage] and a space and ends with a space and
    [lbDocTroubleshootMessage]. *)
Theorem portable_subnet_errors_message
    (F : Type) (code msg : F -> string)
    (lbPortableSubnetMessage lbDocTroubleshootMessage lbNoIPsMessage
       lbDocReferenceMessage : string)
    vlan_order errors_order (portableSubnetVlanErrors : gmap string (list F)) :
  range_orders F vlan_order errors_order ->
  let result :=
    getLoadBalancerPortableSubnetPossibleErrors F code msg
      lbPortableSubnetMessage lbDocTroubleshootMessage lbNoIPsMessage
      lbDocReferenceMessage vlan_order errors_order portableSubnetVlanErrors in
  ((forall vlan es, portableSubnetVlanErrors !! vlan = Some es -> es = []) ->
   result = lbNoIPsMessage +:+ " " +:+ lbDocReferenceMessage) /\
  (forall vlan es e,
     portableSubnetVlanErrors !! vlan = Some es -> e ∈ es ->
     starts_with (lbPortableSubnetMessage +:+ " ") result /\
     ends_with (" " +:+ lbDocTroubleshootMessage) result).
Proof.
  intros Horders result.
  pose proof (getLoadBalancerPortableSubnetPossibleErrors_shape F code msg
                lbPortableSubnetMessage lbDocTroubleshootMessage lbNoIPsMessage
                lbDocReferenceMessage vlan_order errors_order
                portableSubnetVlanErrors) as Hshape.
  cbv zeta in Hshape. fold result in Hshape.
  pose proof Horders as [Hv _]. split.
  - intros Hempty. destruct Hshape as [[_ Hres]|[Hne _]]; [done|].
    exfalso. apply Hne.
    apply (vlan_loop_no_error F code msg vlan_order errors_order Horders).
    apply Forall_forall. intros [vlan es] Hin. simpl.
    rewrite Hv in Hin. apply elem_of_map_to_list in Hin. eauto.
  - intros vlan es e Hvlan He. destruct Hshape as [[Heq _]|[_ Hres]].
    + exfalso. revert Heq.
      eapply (vlan_loop_some_error F code msg vlan_order errors_order Horders); [|done].
      rewrite Hv. by apply elem_of_map_to_list.
    + rewrite Hres. split.
      * rewrite <- append_assoc. apply starts_with_append.
      * rewrite <- !append_assoc. rewrite (append_assoc _ " " lbDocTroubleshootMessage).
        apply ends_with_append.
Qed.

Lemma portable_subnet_errors_message_witness :
  let result :=
    getLoadBalancerPortableSubnetPossibleErrors example_errorField fst snd
      "Portable subnet errors:" "See the troubleshooting guide."
      "No IPs are available." "See the reference."
      map_to_list (fun _ => map_to_list) example_vlanErrors in
  starts_with ("Portable subnet errors:" +:+ " ") result /\
  ends_with (" " +:+ "See the troubleshooting guide.") result.
Proof.
  refine (proj2 (portable_subnet_errors_message example_errorField fst snd
            "Portable subnet errors:" "See the troubleshooting guide."
            "No IPs are available." "See the reference."
            map_to_list (fun _ => map_to_list) example_vlanErrors _)
            "2263901"
            [ ("ErrorSubnetLimitReached", "no more subnets");
              ("ErrorSoftlayerDown", "unable to reach the provider");
              ("ErrorSubnetLimitReached", "no more subnets") ]
            ("ErrorSoftlayerDown", "unable to reach the provider") _ _).
  - split; intros; reflexivity.
  - vm_compute. reflexivity.
  - apply list_elem_of_further, list_elem_of_here.
Defined.

(** * Further properties of the event recorder *)

(** ** Warning methods, for every input *)

(** X1: for every input (nil pointers, a nil receiver and a receiver
    without recorder included) a warning method either panics before
    anything is recorded, or returns a non-nil error after recording
    Warning events only, two for [LoadBalancerWarningEvent] and one for
    the two Service methods, each with the text of the error as message.
    It never returns a nil error and never records a part of its events. *)
Theorem warning_methods_all_or_nothing
    G w c lbDeployment lbService reason lbName errorMessage :
  panics_or_warns 2 w
    (LoadBalancerWarningEvent G c lbDeployment lbService reason errorMessage) /\
  panics_or_warns 1 w
    (LoadBalancerServiceWarningEvent G c lbService reason errorMessage) /\
  panics_or_warns 1 w
    (VpcLoadBalancerServiceWarningEvent c lbService reason lbName errorMessage).
Proof.
  unfold panics_or_warns.
  rewrite LoadBalancerWarningEvent_run, LoadBalancerServiceWarningEvent_run,
    VpcLoadBalancerServiceWarningEvent_run.
  destruct (lookup_ptr w lbService) as [s|]; [|by split_and!; left].
  destruct (lookup_ptr w c) as [[name [r|]]|];
    [|by split_and!; repeat case_match; left..].
  simpl. split_and!.
  - destruct (lookup_ptr w lbDeployment) as [d|]; [|by left].
    right. eexists _, _. split_and!; [reflexivity|reflexivity|].
    by repeat apply Forall_cons_2.
  - right. eexists _, _. split_and!; [reflexivity|reflexivity|].
    by repeat apply Forall_cons_2.
  - right. eexists _, _. split_and!; [reflexivity|reflexivity|].
    by repeat apply Forall_cons_2.
Qed.

(** ** When a method returns *)

Lemma usable_lookup w c :
  usable w c <->
  exists cr r, lookup_ptr w c = Some cr /\ Recorder cr = Some r.
Proof.
  unfold usable, receiver. split.
  - intros (r & cr & Hc & Hr). eauto.
  - intros (cr & r & Hc & Hr). eauto.
Qed.

(** X2: a method returns exactly when every pointer it dereferences
    refers to an object and the receiver has a recorder: the Service, the
    receiver and, for the two methods that take one, the Deployment.
    Nothing else about the arguments decides whether it returns. *)
Theorem methods_return_iff_pointers_valid
    G w c lbDeployment lbService reason lbName text :
  (completes w (LoadBalancerNormalEvent G c lbDeployment lbService reason text) <->
   is_Some (lookup_ptr w lbService) /\ is_Some (lookup_ptr w lbDeployment) /\ usable w c) /\
  (completes w (LoadBalancerWarningEvent G c lbDeployment lbService reason text) <->
   is_Some (lookup_ptr w lbService) /\ is_Some (lookup_ptr w lbDeployment) /\ usable w c) /\
  (completes w (LoadBalancerServiceWarningEvent G c lbService reason text) <->
   is_Some (lookup_ptr w lbService) /\ usable w c) /\
  (completes w (VpcLoadBalancerServiceWarningEvent c lbService reason lbName text) <->
   is_Some (lookup_ptr w lbService) /\ usable w c) /\
  (completes w (VpcLoadBalancerServiceNormalEvent c lbService reason lbName text) <->
   is_Some (lookup_ptr w lbService) /\ usable w c).
Proof.
  unfold completes. rewrite !usable_lookup.
  rewrite LoadBalancerNormalEvent_run, LoadBalancerWarningEvent_run,
    LoadBalancerServiceWarningEvent_run, VpcLoadBalancerServiceWarningEvent_run,
    VpcLoadBalancerServiceNormalEvent_run.
  split_and!; (split;
    [ intros (a & w' & Hm); repeat case_match; try discriminate Hm;
      split_and!; eauto
    | intros Hv; destruct_and!;
      repeat match goal with
      | H : is_Some _ |- _ => destruct H as [? H]; rewrite H
      | H : exists _, _ |- _ => destruct H as [? H]
      | H : _ /\ _ |- _ => destruct H as [? H]
      end;
      repeat match goal with
      | H : _ = Some _ |- _ => rewrite H; clear H
      end; eauto ]).
Qed.

(** ** The two Service warning methods *)

(** X3: for every input, [LoadBalancerServiceWarningEvent] does what
    [VpcLoadBalancerServiceWarningEvent] does when it is given the name
    [GetCloudProviderLoadBalancerName] computes for the Service; on a
    Service pointer that refers to nothing both panic. *)
Theorem service_warning_is_vpc_warning_with_provider_name
    G w c lbService reason errorMessage :
  LoadBalancerServiceWarningEvent G c lbService reason errorMessage w =
  match lookup_ptr w lbService with
  | Some s => VpcLoadBalancerServiceWarningEvent c lbService reason (G s) errorMessage w
  | None => Panics w
  end.
Proof.
  rewrite LoadBalancerServiceWarningEvent_run.
  destruct (lookup_ptr w lbService) as [s|] eqn:Hs; [|done].
  by rewrite VpcLoadBalancerServiceWarningEvent_run, Hs.
Qed.

(** ** Constructors and methods together *)

Lemma recorders_fresh w : recorders w !! fresh (dom (recorders w)) = None.
Proof. apply not_elem_of_dom, is_fresh. Qed.

Lemma NewCloudEventRecorderV1_run providerName eventInterface w :
  NewCloudEventRecorderV1 providerName eventInterface w =
  let cr := {| Name := providerName +:+ "-cloud-provider";
               Recorder := Some (built_recorder providerName eventInterface) |} in
  Returns (Ptr (fresh (dom (recorders w)))) (with_recorder w cr).
Proof. reflexivity. Qed.

Lemma lookup_ptr_with_recorder_new w cr :
  lookup_ptr (with_recorder w cr) (Ptr (fresh (dom (recorders w)))) = Some cr.
Proof. simpl. apply lookup_insert_eq. Qed.

Lemma lookup_ptr_with_recorder_old w cr (c : ptr CloudEventRecorder) cr' :
  lookup_ptr w c = Some cr' -> lookup_ptr (with_recorder w cr) c = Some cr'.
Proof.
  destruct c as [|l]; [done|]. simpl. intros Hl.
  rewrite lookup_insert_ne; [done|].
  intros <-. by rewrite recorders_fresh in Hl.
Qed.

(** X4: a recorder that [NewCloudEventRecorderV1] has just built is a
    usable receiver.  Building one and calling
    [LoadBalancerServiceWarningEvent] on it for a non-nil Service returns
    the error of the template message, and records one Warning event
    through a recorder whose source component is the provider name
    followed by [-cloud-provider], whose broadcaster logs and whose only
    sink is the given events client. *)
Theorem built_recorder_records
    G providerName eventInterface w lbService s reason errorMessage :
  lookup_ptr w lbService = Some s ->
  (c ← NewCloudEventRecorderV1 providerName eventInterface;
   LoadBalancerServiceWarningEvent G c lbService reason errorMessage) w =
  let r := built_recorder providerName eventInterface in
  let message := service_message "Error" (G s) s errorMessage in
  Returns (errors.New message)
    (log_events
       (with_recorder w
          {| Name := providerName +:+ "-cloud-provider"; Recorder := Some r |})
       [ call r (runtime.ServiceObject lbService) v1.EventTypeWarning reason message ]).
Proof.
  intros Hs. rewrite bind_run, NewCloudEventRecorderV1_run. cbv beta iota zeta.
  rewrite LoadBalancerServiceWarningEvent_run.
  replace (lookup_ptr (with_recorder w _) lbService) with (lookup_ptr w lbService)
    by (by destruct lbService).
  rewrite Hs, lookup_ptr_with_recorder_new. reflexivity.
Qed.

Lemma built_recorder_records_witness :
  returned
    ((c ← NewCloudEventRecorderV1 "ibm" {| v1core.client := rest.Client 1; v1core.ns := "" |};
      LoadBalancerServiceWarningEvent example_lbName c (Ptr 1%positive)
        CreatingCloudLoadBalancerFailed "no IPs left") example_world)
  = Some (errors.New (service_message "Error" "lb-a9e2" example_service "no IPs left")).
Proof.
  rewrite (built_recorder_records example_lbName "ibm"
             {| v1core.client := rest.Client 1; v1core.ns := "" |} example_world
             (Ptr 1%positive) example_service CreatingCloudLoadBalancerFailed
             "no IPs left").
  - reflexivity.
  - vm_compute. reflexivity.
Defined.

(** X5: building two recorders one after the other yields two distinct
    pointers, each to a recorder with its own name, and disturbs nothing:
    every recorder that existed is still there, and the Deployments, the
    Services and the log are as they were. *)
Theorem constructors_allocate_apart
    providerName1 eventInterface1 providerName2 eventInterface2 w :
  exists l1 l2 w',
    (c1 ← NewCloudEventRecorderV1 providerName1 eventInterface1;
     c2 ← NewCloudEventRecorderV1 providerName2 eventInterface2;
     mret (c1, c2)) w = Returns (Ptr l1, Ptr l2) w' /\
    l1 <> l2 /\
    Name <$> recorders w' !! l1 = Some (providerName1 +:+ "-cloud-provider") /\
    Name <$> recorders w' !! l2 = Some (providerName2 +:+ "-cloud-provider") /\
    (forall l cr, recorders w !! l = Some cr -> recorders w' !! l = Some cr) /\
    deployments w' = deployments w /\
    services w' = services w /\
    emitted w' = emitted w.
Proof.
  eexists _, _, _. split.
  { rewrite bind_run, NewCloudEventRecorderV1_run. cbv beta iota zeta.
    rewrite bind_run, NewCloudEventRecorderV1_run. reflexivity. }
  set (cr1 := {| Name := _ +:+ _; Recorder := Some (built_recorder providerName1 _) |}).
  set (l1 := fresh (dom (recorders w))).
  set (l2 := fresh (dom (recorders (with_recorder w cr1)))).
  assert (Hne : l1 <> l2).
  { intros Heq.
    pose proof (recorders_fresh (with_recorder w cr1)) as Hfresh.
    fold l2 in Hfresh. rewrite <- Heq in Hfresh.
    unfold with_recorder in Hfresh. simpl in Hfresh. fold l1 in Hfresh.
    by rewrite lookup_insert_eq in Hfresh. }
  split_and!; try done.
  - simpl. fold l1. by rewrite lookup_insert_ne, lookup_insert_eq.
  - simpl. by rewrite lookup_insert_eq.
  - intros l cr Hl. simpl. fold l1.
    assert (l <> l1).
    { intros ->. unfold l1 in Hl. by rewrite recorders_fresh in Hl. }
    assert (l <> l2).
    { intros ->.
      pose proof (recorders_fresh (with_recorder w cr1)) as Hfresh.
      fold l2 in Hfresh. unfold with_recorder in Hfresh. simpl in Hfresh.
      fold l1 in Hfresh. rewrite lookup_insert_ne in Hfresh by done.
      by rewrite Hl in Hfresh. }
    by rewrite !lookup_insert_ne.
Qed.

(** ** One call after the other *)

Lemma receiver_log w new c r : receiver w c r -> receiver (log_events w new) c r.
Proof.
  intros (cr & Hc & Hr). exists cr. split; [|done]. by rewrite lookup_ptr_log.
Qed.

(** X6: calls on the same receiver and objects compose.  With a usable
    receiver and non-nil pointers, [LoadBalancerNormalEvent] followed by
    [LoadBalancerWarningEvent] returns the error of the warning and
    leaves four calls of [Recorder.Event] in the log, in the order they
    were made: the two Normal events, then the two Warning events. *)
Theorem events_accumulate_in_call_order
    G w c r lbDeployment d lbService s reason1 text1 reason2 text2 :
  receiver w c r ->
  lookup_ptr w lbDeployment = Some d ->
  lookup_ptr w lbService = Some s ->
  (LoadBalancerNormalEvent G c lbDeployment lbService reason1 text1;;
   LoadBalancerWarningEvent G c lbDeployment lbService reason2 text2) w =
  let event := deployment_service_message "Event" (G s) d s text1 in
  let error := deployment_service_message "Error" (G s) d s text2 in
  Returns (errors.New error)
    (log_events w
       [ call r (runtime.DeploymentObject lbDeployment) v1.EventTypeNormal reason1 event;
         call r (runtime.ServiceObject lbService) v1.EventTypeNormal reason1 event;
         call r (runtime.DeploymentObject lbDeployment) v1.EventTypeWarning reason2 error;
         call r (runtime.ServiceObject lbService) v1.EventTypeWarning reason2 error ]).
Proof.
  intros Hc Hd Hs. rewrite bind_run.
  rewrite (LoadBalancerNormalEvent_ready G w c r lbDeployment d lbService s Hc Hd Hs).
  cbv beta iota zeta.
  rewrite (LoadBalancerWarningEvent_ready G _ c r lbDeployment d lbService s).
  - cbv zeta. by rewrite log_events_app.
  - by apply receiver_log.
  - by rewrite lookup_ptr_log.
  - by rewrite lookup_ptr_log.
Qed.

Lemma events_accumulate_in_call_order_witness :
  record.eventtype <$>
    emitted
      (world_after
         ((LoadBalancerNormalEvent example_lbName (Ptr 1%positive) (Ptr 1%positive)
             (Ptr 1%positive) CloudLoadBalancerNormalEvent "creating";;
           LoadBalancerWarningEvent example_lbName (Ptr 1%positive) (Ptr 1%positive)
             (Ptr 1%positive) CreatingCloudLoadBalancerFailed "no IPs left")
            example_world))
  = [ v1.EventTypeNormal; v1.EventTypeNormal; v1.EventTypeWarning; v1.EventTypeWarning ].
Proof.
  rewrite (events_accumulate_in_call_order example_lbName example_world
             (Ptr 1%positive) example_recorder (Ptr 1%positive) example_deployment
             (Ptr 1%positive) example_service).
  - reflexivity.
  - eexists. split; vm_compute; reflexivity.
  - vm_compute. reflexivity.
  - vm_compute. reflexivity.
Defined.

(** * Further properties of the portable subnet errors *)

Lemma int_wrap_small z : - 2 ^ 63 <= z < 2 ^ 63 -> int_wrap z = z.
Proof. intros Hz. unfold int_wrap. rewrite Z.mod_small; lia. Qed.

Section PortableSubnetCounting.

Variable F : Type.
Variable code : F -> string.

Local Abbreviation count := (count_error F code).

(** X7: the loop over the subnet errors of a vlan, started with no
    errors, files under each reason code the first error that has it
    together with the number of errors that have it; a reason code no
    error has is not filed.  (The count is exact below the range of
    [int].) *)
Theorem count_error_tallies (es : list F) (k : string) :
  Z.of_nat (length es) < 2 ^ 63 ->
  foldl count ∅ es !! k =
  (fun e => {| errorField := e;
               occurrences := Z.of_nat (length (with_code F code k es)) |})
    <$> head (with_code F code k es).
Proof.
  unfold with_code.
  induction es as [|e es IH] using rev_ind; intros Hlen; [done|].
  rewrite length_app in Hlen. simpl in Hlen.
  rewrite foldl_app, filter_app. simpl.
  pose proof (length_filter (fun e' => code e' = k) es) as Hle.
  unfold count_error at 1.
  destruct (decide (code e = k)) as [Hk|Hk].
  - rewrite filter_cons_True, filter_nil by done.
    rewrite Hk, IH by lia. rewrite length_app. simpl.
    destruct (filter (fun e' => code e' = k) es) as [|e0 r] eqn:Hf; simpl.
    + by rewrite lookup_insert_eq.
    + rewrite lookup_insert_eq. simpl in Hle.
      rewrite int_wrap_small by lia. do 3 f_equal. lia.
  - rewrite filter_cons_False, filter_nil, app_nil_r by done.
    destruct (foldl count ∅ es !! code e); rewrite lookup_insert_ne by done;
      apply IH; lia.
Qed.

End PortableSubnetCounting.

Lemma count_error_tallies_witness :
  foldl (count_error example_errorField fst) ∅
    [ ("ErrorSubnetLimitReached", "no more subnets");
      ("ErrorSoftlayerDown", "unable to reach the provider");
      ("ErrorSubnetLimitReached", "still no more subnets") ]
    !! "ErrorSubnetLimitReached"
  = Some {| errorField := ("ErrorSubnetLimitReached", "no more subnets");
            occurrences := 2 |}.
Proof.
  rewrite (count_error_tallies example_errorField fst).
  - vm_compute. reflexivity.
  - vm_compute. reflexivity.
Defined.

(** ** The message as a list of entries *)

Lemma Join_cons x y rest sep :
  Join (x :: y :: rest) sep = x +:+ sep +:+ Join (y :: rest) sep.
Proof. reflexivity. Qed.

Lemma Join_snoc xs x sep :
  Join (xs ++ [x]) sep =
  match xs with
  | [] => x
  | _ :: _ => Join xs sep +:+ sep +:+ x
  end.
Proof.
  induction xs as [|a [|b xs] IH]; [done|done|].
  change ((a :: b :: xs) ++ [x]) with (a :: b :: (xs ++ [x])).
  rewrite !Join_cons. change (b :: xs ++ [x]) with ((b :: xs) ++ [x]).
  by rewrite IH, !append_assoc.
Qed.

Lemma Join_empty xs sep :
  Forall (fun x => x <> "") xs -> Join xs sep = "" -> xs = [].
Proof.
  destruct xs as [|x [|y xs]]; [done| |].
  - intros Hall%Forall_cons_1 Hx. simpl in Hx. by destruct Hall.
  - intros Hall%Forall_cons_1 Hx. rewrite Join_cons in Hx.
    apply append_eq_empty in Hx as [Hx _]. by destruct Hall.
Qed.

Section PortableSubnetEntriesProperties.

Variable F : Type.
Variables (code msg : F -> string).
Variables (P T N R : string).
Variable vlan_order : gmap string (list F) -> list (string * list F).
Variable errors_order :
  nat -> gmap string (subnetConfigErrors F) -> list (string * subnetConfigErrors F).

Local Abbreviation count := (count_error F code).
Local Abbreviation append := (append_error F code msg).
Local Abbreviation loop := (vlan_loop F code msg errors_order).
Local Abbreviation entry := (error_entry F code msg).
Local Abbreviation entries := (reported F code errors_order).

Lemma error_entry_nonempty e : entry e <> "".
Proof. discriminate. Qed.

Lemma append_error_Join xs e :
  Forall (fun x => x <> "") xs ->
  append (Join xs ", ") e = Join (xs ++ [entry e]) ", ".
Proof.
  intros Hall. unfold append_error. rewrite Sprintf_occurrences, Join_snoc.
  fold (entry e). destruct xs as [|x xs]; [done|].
  destruct (String.eqb_spec (Join (x :: xs) ", ") "") as [Heq|Hne]; simpl.
  - by apply Join_empty in Heq.
  - by rewrite append_assoc.
Qed.

Lemma foldl_append_error_Join l xs :
  Forall (fun x => x <> "") xs ->
  foldl append (Join xs ", ") l = Join (xs ++ (entry <$> l)) ", ".
Proof.
  revert xs. induction l as [|e l IH]; intros xs Hall; simpl.
  - by rewrite app_nil_r.
  - rewrite append_error_Join by done. rewrite IH.
    + by rewrite <- app_assoc.
    + apply Forall_app. split; [done|].
      apply Forall_cons_2; [apply error_entry_nonempty|done].
Qed.

Lemma vlan_loop_Join vlans i errors xs :
  Forall (fun x => x <> "") xs ->
  loop i vlans errors (Join xs ", ") = Join (xs ++ (entry <$> entries i vlans errors)) ", ".
Proof.
  revert i errors xs.
  induction vlans as [|[k es] vlans IH]; intros i errors xs Hall; simpl.
  - by rewrite app_nil_r.
  - rewrite foldl_append_error_Join by done. rewrite IH.
    + by rewrite fmap_app, app_assoc.
    + apply Forall_app. split; [done|].
      apply Forall_fmap, Forall_forall. intros e _. apply error_entry_nonempty.
Qed.

(** X8: for every order of the two ranges, the result is built from the
    entries the loops range over: with none, the two "no IPs" constants
    separated by a space; otherwise the entries, formatted and separated
    by a comma and a space, between the portable subnet constant and the
    troubleshooting constant. *)
Theorem portable_subnet_errors_joins_entries (m : gmap string (list F)) :
  getLoadBalancerPortableSubnetPossibleErrors F code msg P T N R
    vlan_order errors_order m =
  match entries 0%nat (vlan_order m) ∅ with
  | [] => N +:+ " " +:+ R
  | l => P +:+ " " +:+ Join (entry <$> l) ", " +:+ " " +:+ T
  end.
Proof.
  unfold getLoadBalancerPortableSubnetPossibleErrors.
  pose proof (vlan_loop_Join (vlan_order m) 0%nat ∅ [] (Forall_nil_2 _)) as Hl.
  simpl in Hl. rewrite Hl.
  destruct (entries 0%nat (vlan_order m) ∅) as [|e l] eqn:He; [done|].
  destruct (String.eqb_spec (Join (entry <$> e :: l) ", ") "") as [Heq|Hne]; simpl; [|done].
  apply Join_empty in Heq; [done|].
  apply Forall_fmap, Forall_forall. intros e' _. apply error_entry_nonempty.
Qed.

End PortableSubnetEntriesProperties.

(** ** Which entries are reported *)

Lemma Join_elem x xs sep :
  x ∈ xs -> exists before after, Join xs sep = before +:+ x +:+ after.
Proof.
  induction xs as [|a [|b xs] IH]; intros Hin.
  - by apply elem_of_nil in Hin.
  - apply list_elem_of_singleton in Hin as ->. exists "", "". simpl.
    by rewrite append_nil_r.
  - rewrite Join_cons. apply elem_of_cons in Hin as [->|Hin].
    + by exists "", (sep +:+ Join (b :: xs) sep).
    + destruct (IH Hin) as (before & after & ->).
      exists (a +:+ sep +:+ before), after. by rewrite !append_assoc.
Qed.

Lemma filter_length_elem {A} (Q : A -> Prop) `{forall x, Decision (Q x)} x (l : list A) :
  x ∈ l -> Q x -> (1 <= length (filter Q l))%nat.
Proof.
  intros Hin HQ. assert (Hf : x ∈ filter Q l) by by apply list_elem_of_filter.
  destruct (filter Q l); [by apply elem_of_nil in Hf|simpl; lia].
Qed.

Section PortableSubnetReporting.

Variable F : Type.
Variables (code msg : F -> string).
Variables (P T N R : string).
Variable vlan_order : gmap string (list F) -> list (string * list F).
Variable errors_order :
  nat -> gmap string (subnetConfigErrors F) -> list (string * subnetConfigErrors F).
Hypothesis Horders : range_orders F vlan_order errors_order.

Local Abbreviation count := (count_error F code).
Local Abbreviation loop := (vlan_loop F code msg errors_order).
Local Abbreviation entry := (error_entry F code msg).
Local Abbreviation entries := (reported F code errors_order).
Local Abbreviation keyed := (keyed F code).
Local Abbreviation has_code k := (fun v : subnetConfigErrors F => code (errorField v) = k).

Lemma keyed_empty : keyed ∅.
Proof. intros k e He. by rewrite lookup_empty in He. Qed.

Lemma count_error_keyed errors e : keyed errors -> keyed (count errors e).
Proof.
  intros Hk k v. unfold count_error.
  destruct (errors !! code e) as [v0|] eqn:He;
    (destruct (decide (code e = k)) as [<-|Hne];
       [rewrite lookup_insert_eq; intros [= <-]; simpl; eauto
       |rewrite lookup_insert_ne by done; apply Hk]).
Qed.

Lemma foldl_count_error_keyed es errors : keyed errors -> keyed (foldl count errors es).
Proof.
  revert errors. induction es as [|e es IH]; intros errors Hk; simpl; [done|].
  by apply IH, count_error_keyed.
Qed.

Lemma foldl_count_error_inv es errors k :
  is_Some (foldl count errors es !! k) ->
  is_Some (errors !! k) \/ exists e, e ∈ es /\ code e = k.
Proof.
  revert errors. induction es as [|e es IH]; intros errors Hk; simpl in *; [by left|].
  destruct (IH _ Hk) as [Hc|(e' & Hin & He')].
  - destruct (decide (code e = k)) as [Heq|Hne].
    + right. exists e. split; [apply list_elem_of_here|done].
    + left. revert Hc. unfold count_error.
      by destruct (errors !! code e); rewrite lookup_insert_ne.
  - right. exists e'. split; [by apply list_elem_of_further|done].
Qed.

Lemma round_has_entry i errors k :
  keyed errors -> is_Some (errors !! k) ->
  exists v, v ∈ (errors_order i errors).*2 /\ code (errorField v) = k.
Proof.
  intros Hkeyed [v Hv]. exists v. split; [|by eapply Hkeyed].
  destruct Horders as [_ He]. apply list_elem_of_fmap. exists (k, v).
  split; [done|]. rewrite (He i). by apply elem_of_map_to_list.
Qed.

Lemma reported_every_round vlans i errors k :
  keyed errors -> is_Some (errors !! k) ->
  (length vlans <= length (filter (has_code k) (entries i vlans errors)))%nat.
Proof.
  revert i errors. induction vlans as [|[vlan es] vlans IH]; intros i errors Hkeyed Hk;
    simpl; [lia|].
  rewrite filter_app, length_app.
  assert (Hkeyed' : keyed (foldl count errors es)) by by apply foldl_count_error_keyed.
  assert (Hk' : is_Some (foldl count errors es !! k))
    by by apply foldl_count_error_mono.
  destruct (round_has_entry i _ k Hkeyed' Hk') as (v & Hin & Hv).
  pose proof (filter_length_elem (has_code k) v _ Hin Hv).
  pose proof (IH (S i) _ Hkeyed' Hk'). lia.
Qed.

Lemma reported_app before rest i errors :
  entries i (before ++ rest) errors =
  entries i before errors ++
  entries (i + length before) rest
    (foldl (fun acc (vlan : string * list F) => foldl count acc vlan.2) errors before).
Proof.
  revert i errors. induction before as [|[vlan es] before IH]; intros i errors; simpl.
  - by rewrite Nat.add_0_r.
  - rewrite IH, <- app_assoc. by rewrite Nat.add_succ_r.
Qed.

Lemma foldl_rounds_keyed vlans errors :
  keyed errors -> keyed (foldl (fun acc (vlan : string * list F) => foldl count acc vlan.2) errors vlans).
Proof.
  revert errors. induction vlans as [|[vlan es] vlans IH]; intros errors Hk; simpl; [done|].
  by apply IH, foldl_count_error_keyed.
Qed.

Lemma reported_from_own_round before vlan es after e :
  e ∈ es ->
  (1 + length after <=
   length (filter (has_code (code e))
             (entries 0%nat (before ++ (vlan, es) :: after) ∅)))%nat.
Proof.
  intros He. rewrite reported_app, filter_app, length_app.
  set (errors := foldl _ ∅ before).
  assert (Hkeyed : keyed errors) by apply foldl_rounds_keyed, keyed_empty.
  simpl. rewrite filter_app, length_app.
  assert (Hkeyed' : keyed (foldl count errors es)) by by apply foldl_count_error_keyed.
  assert (Hk' : is_Some (foldl count errors es !! code e))
    by by apply foldl_count_error_elem.
  destruct (round_has_entry (length before) _ _ Hkeyed' Hk') as (v & Hin & Hv).
  pose proof (filter_length_elem (has_code (code e)) v _ Hin Hv).
  pose proof (reported_every_round after (S (length before)) _ _ Hkeyed' Hk').
  lia.
Qed.

(** X9: [errors] is kept from one vlan to the next and ranged over for
    every vlan.  So, whatever the orders of the ranges, an error found on
    a vlan gets an entry for its reason code in the round of that vlan
    and one more in the round of every vlan ranged over after it. *)
Theorem error_reported_in_every_later_round
    (m : gmap string (list F)) before vlan es after e :
  vlan_order m = before ++ (vlan, es) :: after ->
  e ∈ es ->
  (1 + length after <=
   length (filter (has_code (code e)) (entries 0%nat (vlan_order m) ∅)))%nat.
Proof. intros -> He. by apply reported_from_own_round. Qed.

(** X10: whatever the orders of the ranges, every subnet error of the
    argument is reported: the result contains the formatted entry of an
    error with the same reason code. *)
Theorem every_error_code_is_reported (m : gmap string (list F)) vlan es e :
  m !! vlan = Some es ->
  e ∈ es ->
  exists v,
    code (errorField v) = code e /\
    Contains
      (getLoadBalancerPortableSubnetPossibleErrors F code msg P T N R
         vlan_order errors_order m)
      (entry v) = true.
Proof.
  intros Hm He.
  assert (Hin : (vlan, es) ∈ vlan_order m).
  { destruct Horders as [Hv _]. rewrite Hv. by apply elem_of_map_to_list. }
  apply list_elem_of_split in Hin as (before & after & Hsplit).
  pose proof (reported_from_own_round before vlan es after e He) as Hlen.
  rewrite <- Hsplit in Hlen.
  destruct (filter (has_code (code e)) (entries 0%nat (vlan_order m) ∅))
    as [|v l] eqn:Hf; [simpl in Hlen; lia|].
  assert (Hv : v ∈ filter (has_code (code e)) (entries 0%nat (vlan_order m) ∅))
    by (rewrite Hf; apply list_elem_of_here).
  apply list_elem_of_filter in Hv as [Hcode Hv].
  exists v. split; [done|].
  pose proof (vlan_loop_Join F code msg errors_order (vlan_order m) 0%nat ∅ []
                (Forall_nil_2 _)) as Hl.
  simpl in Hl.
  destruct (Join_elem (entry v) (entry <$> entries 0%nat (vlan_order m) ∅) ", ")
    as (a & b & HJ); [by apply list_elem_of_fmap_2|].
  destruct (getLoadBalancerPortableSubnetPossibleErrors_shape F code msg P T N R
              vlan_order errors_order m) as [[Hempty _]|[_ ->]].
  - rewrite Hl, HJ in Hempty.
    apply append_eq_empty in Hempty as [_ Hempty].
    apply append_eq_empty in Hempty as [Hempty _].
    by apply error_entry_nonempty in Hempty.
  - rewrite Hl, HJ. do 2 apply Contains_append_r.
    rewrite !append_assoc. apply Contains_append_r, Contains_prefix.
Qed.

(** X11: for an argument with a single vlan, whatever the order of the
    range over [errors], the entries have pairwise different reason
    codes, and the reason codes with an entry are those of the subnet
    errors of that vlan: one entry for each reason code. *)
Theorem single_vlan_one_entry_per_code vlan (es : list F) :
  let codes :=
    (fun v => code (errorField v)) <$> entries 0%nat (vlan_order {[vlan := es]}) ∅ in
  NoDup codes /\
  (forall k, k ∈ codes <-> exists e, e ∈ es /\ code e = k).
Proof.
  destruct Horders as [Hv Herr].
  assert (Hone : vlan_order {[vlan := es]} = [(vlan, es)]).
  { apply Permutation_singleton_r. by rewrite Hv, map_to_list_singleton. }
  rewrite Hone. simpl. rewrite app_nil_r.
  set (errors := foldl count ∅ es).
  assert (Hkeyed : keyed errors) by apply foldl_count_error_keyed, keyed_empty.
  assert (Hcodes : (fun v => code (errorField v)) <$> (errors_order 0%nat errors).*2
                   ≡ₚ (map_to_list errors).*1).
  { rewrite (Herr 0%nat errors). rewrite <- list_fmap_compose.
    erewrite Forall_fmap_ext_1; [reflexivity|].
    apply Forall_forall. intros [k v] Hin. simpl.
    apply elem_of_map_to_list in Hin. by eapply Hkeyed. }
  split.
  - rewrite Hcodes. apply NoDup_fst_map_to_list.
  - intros k. rewrite Hcodes. split.
    + intros ((k' & v) & -> & Hin%elem_of_map_to_list)%list_elem_of_fmap. simpl.
      destruct (foldl_count_error_inv es ∅ k' (mk_is_Some _ _ Hin)) as [Hc|Hc]; [|done].
      rewrite lookup_empty in Hc. by destruct Hc.
    + intros (e & He & <-).
      destruct (foldl_count_error_elem F code es ∅ e He) as [v Hv'].
      apply list_elem_of_fmap. exists (code e, v). split; [done|].
      by apply elem_of_map_to_list.
Qed.

End PortableSubnetReporting.

Lemma error_reported_in_every_later_round_witness :
  (1 + length [("2263903", @nil example_errorField)] <=
   length
     (filter (fun v => fst (errorField v) = "ErrorSoftlayerDown")
        (reported example_errorField fst (fun _ => map_to_list) 0%nat
           (reverse (map_to_list example_vlanErrors)) ∅)))%nat.
Proof.
  apply (error_reported_in_every_later_round example_errorField fst
           (fun m => reverse (map_to_list m)) (fun _ => map_to_list)
           (conj (fun m => reverse_Permutation (map_to_list m))
                 (fun _ m => reflexivity (map_to_list m)))
           example_vlanErrors []
           "2263901"
           [ ("ErrorSubnetLimitReached", "no more subnets");
             ("ErrorSoftlayerDown", "unable to reach the provider");
             ("ErrorSubnetLimitReached", "no more subnets") ]
           [("2263903", [])]
           ("ErrorSoftlayerDown", "unable to reach the provider")).
  - vm_compute. reflexivity.
  - apply list_elem_of_further, list_elem_of_here.
Defined.

Lemma every_error_code_is_reported_witness :
  exists v,
    fst (errorField v) = "ErrorSoftlayerDown" /\
    Contains
      (getLoadBalancerPortableSubnetPossibleErrors example_errorField fst snd
         "Portable subnet errors:" "See the troubleshooting guide."
         "No IPs are available." "See the reference."
         map_to_list (fun _ => map_to_list) example_vlanErrors)
      (error_entry example_errorField fst snd v) = true.
Proof.
  apply (every_error_code_is_reported example_errorField fst snd
           "Portable subnet errors:" "See the troubleshooting guide."
           "No IPs are available." "See the reference."
           map_to_list (fun _ => map_to_list)
           (conj (fun m => reflexivity (map_to_list m))
                 (fun _ m => reflexivity (map_to_list m)))
           example_vlanErrors "2263901"
           [ ("ErrorSubnetLimitReached", "no more subnets");
             ("ErrorSoftlayerDown", "unable to reach the provider");
             ("ErrorSubnetLimitReached", "no more subnets") ]
           ("ErrorSoftlayerDown", "unable to reach the provider")).
  - vm_compute. reflexivity.
  - apply list_elem_of_further, list_elem_of_here.
Defined.

Lemma single_vlan_one_entry_per_code_witness :
  NoDup
    ((fun v => fst (errorField v)) <$>
       reported example_errorField fst (fun _ => map_to_list) 0%nat
         (map_to_list
            {[ "2263901" :=
                 [ ("ErrorSubnetLimitReached", "no more subnets");
                   ("ErrorSoftlayerDown", "unable to reach the provider");
                   ("ErrorSubnetLimitReached", "no more subnets") ] ]}) ∅).
Proof.
  apply (single_vlan_one_entry_per_code example_errorField fst
           map_to_list (fun _ => map_to_list)
           (conj (fun m => reflexivity (map_to_list m))
                 (fun _ m => reflexivity (map_to_list m)))
           "2263901").
Defined.

(** * Properties of the fake client of the CSIDrivers *)

Section FakeCSIDriversProperties.

Context `{fake.Testing}.

Lemma c_Fake_Invokes_ready c action defaultReturnObj t :
  fake_ready c ->
  fake.c_Fake_Invokes c action defaultReturnObj t =
  fake.Returns (fake.Invokes action defaultReturnObj t).1
    (fake.Invokes action defaultReturnObj t).2.
Proof.
  intros (c' & -> & Hf). unfold fake.c_Fake_Invokes. rewrite Hf.
  by destruct (fake.Invokes action defaultReturnObj t).
Qed.

Lemma relays_answer_intro c action t :
  relays_answer c action
    (fake.bind (fake.c_Fake_Invokes c action
                  (fake.CSIDriverObject (Some fake.zero_CSIDriver)))
       (fake.result_or_empty (Some fake.zero_CSIDriver))) t.
Proof.
  unfold relays_answer, fake.bind, fake.c_Fake_Invokes.
  destruct c as [[[[]|]]|]; [|done|done].
  destruct (fake.Invokes action _ t) as [[obj err] t']. by destruct obj.
Qed.

(** X12: [Get], [Create], [Update] and [Patch] relay what the fake
    answers to their action.  When the fake answers no object they return
    a pointer to an empty CSIDriver, never nil, with the error of the
    fake; a [*v1beta1.CSIDriver] is returned as it is, nil included; an
    object of another type makes them panic, after the fake has seen the
    action.  On a nil receiver or a nil [Fake] they panic and the fake
    sees nothing. *)
Theorem fake_methods_relay_answer c name options cSIDriver createOpts updateOpts
    pt data patchOpts subresources t :
  relays_answer c
    (fake.NewRootGetActionWithOptions fake.csidriversResource name options)
    (fake.Get c name options) t /\
  relays_answer c
    (fake.NewRootCreateActionWithOptions fake.csidriversResource cSIDriver createOpts)
    (fake.Create c cSIDriver createOpts) t /\
  relays_answer c
    (fake.NewRootUpdateActionWithOptions fake.csidriversResource cSIDriver updateOpts)
    (fake.Update c cSIDriver updateOpts) t /\
  relays_answer c
    (fake.NewRootPatchSubresourceActionWithOptions fake.csidriversResource name pt
       data patchOpts subresources)
    (fake.Patch c name pt data patchOpts subresources) t.
Proof. split_and!; apply relays_answer_intro. Qed.

(** X13: [Apply] turns down a nil configuration, a configuration that
    cannot be marshalled and a configuration without name before it
    reaches the fake: it returns a nil result with the error of the case,
    the fake sees no action, and the receiver is not even looked at. *)
Theorem Apply_refuses_before_invoking c opts t :
  fake.Apply c None opts t =
    fake.Returns
      (None, errors.New "cSIDriver provided to Apply must not be nil") t /\
  (forall config data e,
     fake.Marshal config = (data, Some e) ->
     fake.Apply c (Some config) opts t = fake.Returns (None, Some e) t) /\
  (forall config data,
     fake.Marshal config = (data, None) ->
     fake.ApplyConfiguration_Name config = Some None ->
     fake.Apply c (Some config) opts t =
       fake.Returns
         (None, errors.New "cSIDriver.Name must be provided to Apply") t).
Proof.
  split_and!.
  - reflexivity.
  - intros config data e Hm. unfold fake.Apply. by rewrite Hm.
  - intros config data Hm Hn. unfold fake.Apply. by rewrite Hm, Hn.
Qed.

(** X14: for a configuration that marshals and has a name, [Apply] is
    [Patch] of that name with the patch type [ApplyPatchType], the
    marshalled configuration as data, the options converted by
    [ToPatchOptions] and no subresource. *)
Theorem Apply_is_Patch c config opts data name :
  fake.Marshal config = (data, None) ->
  fake.ApplyConfiguration_Name config = Some (Some name) ->
  fake.Apply c (Some config) opts =
  fake.Patch c name fake.ApplyPatchType data (fake.ToPatchOptions opts) [].
Proof. intros Hm Hn. unfold fake.Apply. by rewrite Hm, Hn. Qed.

Lemma List_loop_filter label meta (items acc : list fake.CSIDriver) :
  foldl
    (fun list item =>
       if fake.Matches label (fake.Labels item)
       then {| fake.listMeta := fake.listMeta list;
               fake.Items := fake.Items list ++ [item] |}
       else list)
    {| fake.listMeta := meta; fake.Items := acc |} items
  = {| fake.listMeta := meta;
       fake.Items :=
         acc ++ filter (fun item => fake.Matches label (fake.Labels item) = true) items |}.
Proof.
  revert acc. induction items as [|item items IH]; intros acc; simpl.
  - by rewrite app_nil_r.
  - destruct (fake.Matches label (fake.Labels item)) eqn:Hm.
    + rewrite IH. simpl. rewrite filter_cons_True by done. by rewrite <- app_assoc.
    + rewrite IH. by rewrite filter_cons_False by (by rewrite Hm).
Qed.

Lemma List_run c opts t objList err t' label :
  fake_ready c ->
  fake.Invokes
    (fake.NewRootListActionWithOptions fake.csidriversResource fake.csidriversKind opts)
    (fake.CSIDriverListObject
       (Some {| fake.listMeta := fake.zero_ListMeta; fake.Items := [] |})) t
  = (fake.CSIDriverListObject (Some objList), err, t') ->
  fake.ExtractFromListOptions opts = Some label ->
  fake.List c opts t =
  fake.Returns
    (Some {| fake.listMeta := fake.listMeta objList;
             fake.Items :=
               filter (fun item =>
                         fake.Matches (default fake.Everything label)
                           (fake.Labels item) = true)
                 (fake.Items objList) |}, err) t'.
Proof.
  intros Hc Hi He. unfold fake.List, fake.bind, fake.with_list_options.
  rewrite He. unfold fake.ret at 1.
  rewrite c_Fake_Invokes_ready, Hi by done. simpl. rewrite ?He. simpl.
  rewrite List_loop_filter. simpl. by destruct label.
Qed.

(** X15: when the fake answers a list action with a list, [List] returns
    a new list with the [ListMeta] of the answer and, of its items, those
    whose labels match the label selector of the options, in their order;
    the error is the one of the fake. *)
Theorem List_filters_by_label c opts t objList err t' label :
  fake_ready c ->
  fake.Invokes
    (fake.NewRootListActionWithOptions fake.csidriversResource fake.csidriversKind opts)
    (fake.CSIDriverListObject
       (Some {| fake.listMeta := fake.zero_ListMeta; fake.Items := [] |})) t
  = (fake.CSIDriverListObject (Some objList), err, t') ->
  fake.ExtractFromListOptions opts = Some (Some label) ->
  fake.List c opts t =
  fake.Returns
    (Some {| fake.listMeta := fake.listMeta objList;
             fake.Items :=
               filter (fun item => fake.Matches label (fake.Labels item) = true)
                 (fake.Items objList) |}, err) t'.
Proof.
  intros Hc Hi He.
  rewrite (List_run c opts t objList err t' (Some label) Hc Hi He). reflexivity.
Qed.

(** X16: when the options carry no label selector and
    [labels.Everything()] matches every set of labels, [List] returns all
    the items the fake answered, in their order. *)
Theorem List_without_selector_returns_all c opts t objList err t' :
  (forall labels, fake.Matches fake.Everything labels = true) ->
  fake_ready c ->
  fake.Invokes
    (fake.NewRootListActionWithOptions fake.csidriversResource fake.csidriversKind opts)
    (fake.CSIDriverListObject
       (Some {| fake.listMeta := fake.zero_ListMeta; fake.Items := [] |})) t
  = (fake.CSIDriverListObject (Some objList), err, t') ->
  fake.ExtractFromListOptions opts = Some None ->
  fake.List c opts t = fake.Returns (Some objList, err) t'.
Proof.
  intros Hall Hc Hi He.
  rewrite (List_run c opts t objList err t' None Hc Hi He). simpl.
  destruct objList as [meta items]. simpl.
  assert (Hf : filter (fun item => fake.Matches fake.Everything (fake.Labels item) = true)
                 items = items).
  { clear Hi. induction items as [|item items IH]; [done|].
    rewrite filter_cons_True by apply Hall. by rewrite IH. }
  by rewrite Hf.
Qed.

(** X17: [List] on its edges.  List options that make
    [testing.ExtractFromListOptions] panic make [List] panic while the
    action is built, for every receiver and before the fake sees
    anything.  With options that can be extracted, a fake that answers
    the list action with no object gets a pointer to an empty list, never
    nil, with the error of the fake, and the label selector is not
    applied; a nil [*v1beta1.CSIDriverList] or an object of another type
    makes [List] panic after the fake has seen the action. *)
Theorem List_edge_cases c opts t :
  (fake.ExtractFromListOptions opts = None -> fake.List c opts t = fake.Panics t) /\
  (forall label answer err t',
     fake_ready c ->
     fake.ExtractFromListOptions opts = Some label ->
     fake.Invokes
       (fake.NewRootListActionWithOptions fake.csidriversResource fake.csidriversKind
          opts)
       (fake.CSIDriverListObject
          (Some {| fake.listMeta := fake.zero_ListMeta; fake.Items := [] |})) t
     = (answer, err, t') ->
     match answer with
     | fake.NilObject =>
         fake.List c opts t =
         fake.Returns
           (Some {| fake.listMeta := fake.zero_ListMeta; fake.Items := [] |}, err) t'
     | fake.CSIDriverListObject (Some _) => True
     | _ => fake.List c opts t = fake.Panics t'
     end).
Proof.
  split.
  - intros He. unfold fake.List, fake.bind, fake.with_list_options. by rewrite He.
  - intros label answer err t' Hc He Hi.
    destruct answer as [|p|[l|]|name]; try exact I;
      unfold fake.List, fake.bind, fake.with_list_options;
      rewrite He; unfold fake.ret at 1;
      rewrite c_Fake_Invokes_ready, Hi by done; simpl; by rewrite ?He.
Qed.

(** X18: [Delete] never looks at the object the fake answers: on a usable
    receiver it always returns, with the error of the fake, whatever the
    type of that object.  So does [DeleteCollection] when
    [testing.ExtractFromListOptions] accepts its list options; when it
    panics on them, [DeleteCollection] panics while the action is built,
    for every receiver and before the fake sees anything. *)
Theorem Delete_returns_error_of_fake c name opts listOpts t :
  (fake_ready c ->
   let answer :=
     fake.Invokes (fake.NewRootDeleteActionWithOptions fake.csidriversResource name opts)
       (fake.CSIDriverObject (Some fake.zero_CSIDriver)) t in
   fake.Delete c name opts t = fake.Returns answer.1.2 answer.2) /\
  (fake_ready c ->
   is_Some (fake.ExtractFromListOptions listOpts) ->
   let answer :=
     fake.Invokes
       (fake.NewRootDeleteCollectionActionWithOptions fake.csidriversResource opts
          listOpts)
       (fake.CSIDriverListObject
          (Some {| fake.listMeta := fake.zero_ListMeta; fake.Items := [] |})) t in
   fake.DeleteCollection c opts listOpts t = fake.Returns answer.1.2 answer.2) /\
  (fake.ExtractFromListOptions listOpts = None ->
   fake.DeleteCollection c opts listOpts t = fake.Panics t).
Proof.
  split_and!.
  - intros Hc. cbv zeta. unfold fake.Delete, fake.bind.
    rewrite c_Fake_Invokes_ready by done.
    by destruct (fake.Invokes _ _ t) as [[obj err] t'].
  - intros Hc [label He]. cbv zeta.
    unfold fake.DeleteCollection, fake.bind, fake.with_list_options.
    rewrite He. unfold fake.ret at 1. rewrite c_Fake_Invokes_ready by done.
    by destruct (fake.Invokes _ _ t) as [[obj err] t'].
  - intros He. unfold fake.DeleteCollection, fake.bind, fake.with_list_options.
    by rewrite He.
Qed.

End FakeCSIDriversProperties.

Lemma Apply_refuses_before_invoking_witness :
  @fake.Apply example_Imports example_Testing None (Some (Some (Some ""))) tt no_actions
    = fake.Returns (None, errors.New "json: unsupported value") no_actions /\
  @fake.Apply example_Imports example_Testing example_client (Some (Some None)) tt
      no_actions
    = fake.Returns (None, errors.New "cSIDriver.Name must be provided to Apply")
        no_actions.
Proof.
  split.
  - apply (proj1 (proj2 (@Apply_refuses_before_invoking example_Imports example_Testing
                           None tt no_actions)) (Some (Some "")) []).
    reflexivity.
  - apply (proj2 (proj2 (@Apply_refuses_before_invoking example_Imports example_Testing
                           example_client tt no_actions)) (Some None) []).
    + reflexivity.
    + reflexivity.
Defined.

Lemma Apply_is_Patch_witness :
  @fake.Apply example_Imports example_Testing example_client
    (Some (Some (Some "ebs.csi"))) tt
  = @fake.Patch example_Imports example_Testing example_client "ebs.csi"
      fake.ApplyPatchType [] tt [].
Proof.
  apply (@Apply_is_Patch example_Imports example_Testing example_client
           (Some (Some "ebs.csi")) tt [] "ebs.csi").
  - reflexivity.
  - reflexivity.
Defined.

Lemma List_filters_by_label_witness :
  fake.Items <$>
    (fake_result
       (@fake.List example_Imports example_Testing example_client gold_tier no_actions))
  = Some [ ("ebs.csi", {[ "tier" := "gold" ]});
           ("disk.csi", <[ "zone" := "a" ]> {[ "tier" := "gold" ]}) ].
Proof.
  rewrite (@List_filters_by_label example_Imports example_Testing example_client
             gold_tier no_actions example_drivers None
             (seen [list_action gold_tier])
             ({[ "tier" := "gold" ]} : gmap string string)).
  - reflexivity.
  - eexists. split; reflexivity.
  - reflexivity.
  - reflexivity.
Defined.

Lemma List_without_selector_returns_all_witness :
  @fake.List example_Imports example_Testing example_client no_selector no_actions
  = fake.Returns (Some example_drivers, None)
      (seen [list_action no_selector]).
Proof.
  apply (@List_without_selector_returns_all example_Imports example_Testing
           example_client no_selector no_actions example_drivers None).
  - intros labels. apply bool_decide_eq_true. apply map_empty_subseteq.
  - eexists. split; reflexivity.
  - reflexivity.
  - reflexivity.
Defined.

Lemma List_edge_cases_witness :
  @fake.List example_Imports example_Testing example_client bad_selector no_actions
  = fake.Panics no_actions /\
  @fake.List example_Imports failing_Testing example_client no_selector
    failing_no_actions
  = @fake.Returns example_Imports failing_Testing _
      (Some (@fake.Build_CSIDriverList example_Imports "" []),
       errors.New "injected failure")
      (failing_seen [list_action no_selector]).
Proof.
  split.
  - apply (proj1 (@List_edge_cases example_Imports example_Testing example_client
                    bad_selector no_actions)).
    reflexivity.
  - apply (proj2 (@List_edge_cases example_Imports failing_Testing example_client
                    no_selector failing_no_actions)
             None fake.NilObject (errors.New "injected failure")
             (failing_seen [list_action no_selector])).
    + eexists. split; reflexivity.
    + reflexivity.
    + reflexivity.
Defined.

Lemma Delete_returns_error_of_fake_witness :
  @fake.Delete example_Imports failing_Testing example_client "ebs.csi" tt
    failing_no_actions
  = @fake.Returns example_Imports failing_Testing _
      (errors.New "injected failure")
      (failing_seen
         [ @fake.NewRootDeleteActionWithOptions example_Imports
             (@fake.csidriversResource example_Imports) "ebs.csi" tt ]) /\
  @fake.DeleteCollection example_Imports failing_Testing example_client tt gold_tier
    failing_no_actions
  = @fake.Returns example_Imports failing_Testing _
      (errors.New "injected failure")
      (failing_seen
         [ @fake.NewRootDeleteCollectionActionWithOptions example_Imports
             (@fake.csidriversResource example_Imports) tt gold_tier ]) /\
  @fake.DeleteCollection example_Imports failing_Testing example_client tt bad_selector
    failing_no_actions
  = fake.Panics failing_no_actions.
Proof.
  split_and!.
  - rewrite (proj1 (@Delete_returns_error_of_fake example_Imports failing_Testing
                      example_client "ebs.csi" tt no_selector failing_no_actions)
               (ex_intro _ _ (conj eq_refl eq_refl))).
    reflexivity.
  - rewrite (proj1 (proj2 (@Delete_returns_error_of_fake example_Imports failing_Testing
                             example_client "ebs.csi" tt gold_tier failing_no_actions))
               (ex_intro _ _ (conj eq_refl eq_refl))
               (mk_is_Some _ _ eq_refl)).
    reflexivity.
  - apply (proj2 (proj2 (@Delete_returns_error_of_fake example_Imports failing_Testing
                           example_client "ebs.csi" tt bad_selector failing_no_actions))).
    reflexivity.
Defined.
